(** * SSD training driver (train.py): a shallow embedding and its properties

    The driver is a Python script: module-level set-up (argument parsing,
    network assembly, weight initialisation, optimiser and loss
    construction) followed by [train()], a bounded loop over
    [range(max_iter)].  The embedding keeps the script's names.  Exceptions
    are explicit results, the effects on the outside world (visdom, files,
    standard output, data loaders) are recorded in a log, and the tensor
    computations of the external libraries are oracles of the environment. *)

From Stdlib Require Import ZArith QArith List Lia.
From stdpp Require Import base numbers list gmap strings pretty.

Local Open Scope Z_scope.
Set Warnings "-register-all".

(** ** Python values *)

(** Python floats.  The driver only adds, multiplies and exponentiates
    them; the operations are kept abstract, so that every statement below
    holds for the rounding behaviour of any float implementation.  They
    are total here: the exceptions of float arithmetic ([OverflowError],
    zero to a negative power) are outside the model. *)
Class FloatOps (F : Type) := {
  float_lit : Q → F;            (* the float denoted by a decimal literal *)
  float_of_int : Z → F;         (* int -> float coercion of mixed arithmetic *)
  fadd : F → F → F;             (* x + y *)
  fmul : F → F → F;             (* x * y *)
  fpow : F → Z → F              (* x ** n, n an int *)
}.

(** Exact rationals are one implementation; the examples run on it. *)
#[export] Instance Q_FloatOps : FloatOps Q := {|
  float_lit q := Qred q;
  float_of_int z := inject_Z z;
  fadd x y := Qred (Qplus x y);
  fmul x y := Qred (Qmult x y);
  fpow x n := Qred (Qpower x n)
|}.

(** The exceptions the driver can die of. *)
Inductive exn :=
  | ZeroDivisionError
  | StopIteration
  | ValueError
  | AttributeError
  | UnboundLocalError.

#[export] Instance exn_eq_dec : EqDecision exn.
Proof. solve_decision. Defined.

(** A computation either completes or raises; both carry what was reached,
    since the effects performed before an exception stay performed. *)
Inductive result (S : Type) :=
  | Done (s : S)
  | Raised (e : exn) (s : S).
Arguments Done {S} s.
Arguments Raised {S} e s.

Definition bind {S} (r : result S) (k : S → result S) : result S :=
  match r with
  | Done s => k s
  | Raised e s => Raised e s
  end.

Definition reached {S} (r : result S) : S :=
  match r with Done s => s | Raised _ s => s end.

Notation "r >>= k" := (bind r k) (at level 50, left associativity).

Section Model.
Context {F : Type} `{FO : FloatOps F}.

(** A Python number: the loss counters start as the int [0] and become
    floats once a float has been added. *)
Inductive pynum :=
  | PyInt (n : Z)
  | PyFloat (x : F).

Definition py_add (a b : pynum) : pynum :=
  match a, b with
  | PyInt m, PyInt n => PyInt (m + n)
  | PyInt m, PyFloat y => PyFloat (fadd (float_of_int m) y)
  | PyFloat x, PyInt n => PyFloat (fadd x (float_of_int n))
  | PyFloat x, PyFloat y => PyFloat (fadd x y)
  end.

(** [a // b] and [a % b] on ints: floor division, the remainder has the
    sign of the divisor (as [Z.div] and [Z.modulo]), and a zero divisor
    raises. *)
Definition py_floordiv (a b : Z) : option Z :=
  if decide (b = 0) then None else Some (a / b).

Definition py_mod (a b : Z) : option Z :=
  if decide (b = 0) then None else Some (a mod b).

(** [a / b] on ints: a zero divisor raises; otherwise the quotient is the
    float nearest to the exact one (under Python 2 it is the int of the
    floor division instead: the driver divides this way once, in line 47,
    and never reads the quotient). *)
Definition py_truediv (a b : Z) : option F :=
  if decide (b = 0) then None
  else Some (float_lit (Qdiv (inject_Z a) (inject_Z b))).

(** [repr(i)] of an int. *)
Definition repr (i : Z) : string := pretty i.

(** ** Command line (lines 20-35) *)

Record args := {
  version : string;
  basenet : string;
  jaccard_threshold : F;
  batch_size : Z;
  num_workers : Z;
  iterations : Z;
  cuda : bool;
  lr : F;
  momentum : F;
  weight_decay : F;
  gamma : F;
  log_iters : bool;
  visdom : bool;
  save_folder : string
}.

Definition set_iterations (v : Z) (a : args) : args :=
  {| version := version a; basenet := basenet a;
     jaccard_threshold := jaccard_threshold a; batch_size := batch_size a;
     num_workers := num_workers a; iterations := v; cuda := cuda a;
     lr := lr a; momentum := momentum a; weight_decay := weight_decay a;
     gamma := gamma a; log_iters := log_iters a; visdom := visdom a;
     save_folder := save_folder a |}.

(** ** Module-level constants (lines 42-52) *)

Definition ssd_dim : Z := 300.
Definition num_classes : Z := 21.
Definition accum_batch_size : Z := 32.

(** Line 47, [iter_size = accum_batch_size / batch_size]: evaluated when
    the module is loaded, before the network is built. *)
Definition iter_size (a : args) : option F :=
  py_truediv accum_batch_size (batch_size a).

Definition max_iter : Z := 120000.
Definition stepvalues : list Z := [80000; 100000; 120000].

(** ** The optimiser (torch.optim.SGD) *)

(** What a parameter group's dictionary holds. *)
Inductive pval :=
  | VNum (x : pynum)
  | VParams (ids : list nat).   (* references to the network's parameters *)

Record Optimizer := { param_groups : list (gmap string pval) }.

(** [optim.SGD(params, lr=.., momentum=.., weight_decay=..)]: one group
    with the given parameters and the defaults of the rest. *)
Definition SGD (params : list nat) (lr0 momentum0 weight_decay0 : F) : Optimizer :=
  {| param_groups :=
       [ <["params" := VParams params]>
         (<["lr" := VNum (PyFloat lr0)]>
         (<["momentum" := VNum (PyFloat momentum0)]>
         (<["dampening" := VNum (PyInt 0)]>
         (<["weight_decay" := VNum (PyFloat weight_decay0)]> ∅)))) ] |}.

(** ** adjust_learning_rate (lines 171-178) *)

Definition adjust_learning_rate (a : args) (optimizer : Optimizer)
    (gamma0 : F) (step : Z) : Optimizer :=
  let lr' := fmul (lr a) (fpow gamma0 step) in
  {| param_groups :=
       (λ param_group, <["lr" := VNum (PyFloat lr')]> param_group)
         <$> param_groups optimizer |}.

(** ** The network and its initialisation (lines 58-81) *)

(** A tensor: its shape and its elements in storage order. *)
Record tensor := { shape : list nat; data : list F }.

(** A module tree.  [Conv2d] is told apart because [weights_init] tests
    for it; a convolution built with [bias=False] has [bias = None].
    Every other layer kind (ReLU, MaxPool2d, BatchNorm2d, ModuleList,
    Sequential, ...) is a [Layer] with its own parameters and its
    children. *)
Inductive module :=
  | Conv2d (weight : tensor) (bias : option tensor)
  | Layer (kind : string) (params : list tensor) (children : list module).

(** [build_ssd] is outside this file: the network it returns is an input,
    with the four parts that the script touches. *)
Record SSD := {
  vgg : list module;
  extras : module;
  loc : module;
  conf : module
}.

(** [init.xavier_uniform(t)] refills [t] in place with random draws whose
    range depends on the shape only.  The generator of type [G] and the
    sampling function are the library's: [xavier_sample g sh] returns
    the elements drawn for shape [sh] and the next generator state. *)
Context {G : Type} (xavier_sample : G → list nat → list F * G).

Definition xavier (param : tensor) (g : G) : tensor * G :=
  let '(xs, g') := xavier_sample g (shape param) in
  ({| shape := shape param; data := xs |}, g').

(** [t.zero_()] *)
Definition zero_ (t : tensor) : tensor :=
  {| shape := shape t; data := (λ _, float_of_int 0) <$> data t |}.

(** [weights_init(m)] (lines 72-75); [m.bias.data] of a missing bias is an
    attribute access on [None]. *)
Definition weights_init (m : module) (g : G) : result (module * G) :=
  match m with
  | Conv2d w b =>
      let '(w', g') := xavier w g in
      match b with
      | Some b0 => Done (Conv2d w' (Some (zero_ b0)), g')
      | None => Raised AttributeError (Conv2d w' None, g')
      end
  | Layer _ _ _ => Done (m, g)
  end.

(** [nn.Module.apply(fn)]: the children first, in order, then the module
    itself. *)
Fixpoint apply (fn : module → G → result (module * G)) (m : module) (g : G)
    : result (module * G) :=
  match m with
  | Conv2d _ _ => fn m g
  | Layer kind ps cs =>
      let fix apply_children (ms : list module) (g : G)
          : result (list module * G) :=
        match ms with
        | [] => Done ([], g)
        | c :: ms' =>
            match apply fn c g with
            | Done (c', g1) =>
                match apply_children ms' g1 with
                | Done (cs', g2) => Done (c' :: cs', g2)
                | Raised e (cs', g2) => Raised e (c' :: cs', g2)
                end
            | Raised e (c', g1) => Raised e (c' :: ms', g1)
            end
        end in
      match apply_children cs g with
      | Done (cs', g') => fn (Layer kind ps cs') g'
      | Raised e (cs', g') => Raised e (Layer kind ps cs', g')
      end
  end.

(** Lines 79-81. *)
Definition initialize_weights (net : SSD) (g : G) : result (SSD * G) :=
  match apply weights_init (extras net) g with
  | Raised e (x, g1) =>
      Raised e ({| vgg := vgg net; extras := x; loc := loc net; conf := conf net |}, g1)
  | Done (x, g1) =>
      match apply weights_init (loc net) g1 with
      | Raised e (l, g2) =>
          Raised e ({| vgg := vgg net; extras := x; loc := l; conf := conf net |}, g2)
      | Done (l, g2) =>
          match apply weights_init (conf net) g2 with
          | Raised e (c, g3) =>
              Raised e ({| vgg := vgg net; extras := x; loc := l; conf := c |}, g3)
          | Done (c, g3) =>
              Done ({| vgg := vgg net; extras := x; loc := l; conf := c |}, g3)
          end
      end
  end.

(** [net.parameters()]: the parameter tensors, here counted. *)
Fixpoint count_parameters (m : module) : nat :=
  match m with
  | Conv2d _ b => (1 + match b with Some _ => 1 | None => 0 end)%nat
  | Layer _ ps cs => (length ps + foldr (λ c n, count_parameters c + n) 0 cs)%nat
  end.

Definition parameters (net : SSD) : list nat :=
  seq 0 (foldr (λ c n, count_parameters c + n) 0 (vgg net)
         + count_parameters (extras net) + count_parameters (loc net)
         + count_parameters (conf net))%nat.

(** ** The loss function (line 85) *)

(** Modelled from the spec: the parameter list of the [MultiBoxLoss]
    constructor, whose class (module [modules]) is not part of this file.
    The call passes eight positional arguments; the spec reads six of them
    as the class count, the matching threshold, hard-negative mining, its
    negative:positive ratio, an additional threshold and class balancing,
    and is silent on the third and the fourth. *)
Record MultiBoxLoss := {
  class_count : Z;
  matching_threshold : F;
  third_argument : bool;
  fourth_argument : Z;
  hard_negative_mining : bool;
  neg_pos_ratio : Z;
  additional_threshold : F;
  class_balancing : bool
}.

(** [MultiBoxLoss(num_classes, 0.5, True, 0, True, 3, 0.5, False)] *)
Definition criterion (a : args) : MultiBoxLoss :=
  {| class_count := num_classes;
     matching_threshold := float_lit (5 # 10);
     third_argument := true;
     fourth_argument := 0;
     hard_negative_mining := true;
     neg_pos_ratio := 3;
     additional_threshold := float_lit (5 # 10);
     class_balancing := false |}.

(** ** Data loading (torch.utils.data.DataLoader) *)

Definition insert_at {A} (k : nat) (x : A) (l : list A) : list A :=
  take k l ++ x :: drop k l.

(** A random permutation: every element is inserted at a drawn position. *)
Fixpoint shuffle {A} (draws : nat → nat) (l : list A) : list A :=
  match l with
  | [] => []
  | x :: l' =>
      insert_at (draws (length l') `mod` S (length l'))%nat x (shuffle draws l')
  end.

(** Consecutive batches of [n] elements, the last one possibly shorter
    ([drop_last=False]). *)
Fixpoint chunks_fuel {A} (fuel n : nat) (l : list A) : list (list A) :=
  match fuel, l with
  | O, _ | _, [] => []
  | S fuel', _ :: _ => take n l :: chunks_fuel fuel' n (drop n l)
  end.

Definition chunks {A} (n : nat) (l : list A) : list (list A) :=
  chunks_fuel (length l) n l.

(** [iter(data.DataLoader(dataset, batch_size, shuffle=True, ...))]: the
    batches of sample indices still to come; a batch size that is not
    positive is refused. *)
Definition DataLoader (dataset_len : nat) (batch_size0 : Z)
    (draws : nat → nat) : option (list (list nat)) :=
  if decide (batch_size0 ≤ 0) then None
  else Some (chunks (Z.to_nat batch_size0) (shuffle draws (seq 0 dataset_len))).

(** ** The environment and the log *)

Record env := {
  dataset_len : nat;                 (* len(dataset) *)
  sampler_draws : Z → nat → nat;     (* random numbers drawn by the loader
                                        created at a given iteration *)
  criterion_out : Z → F * F * F      (* loss_l.data[0], loss_c.data[0] and
                                        loss.data[0] at a given iteration *)
}.

Inductive event :=
  | EvMultiBoxLoss (c : MultiBoxLoss)             (* line 85 *)
  | EvVizCreate                                   (* lines 104-115 *)
  | EvNewIterator (batches : list (list nat))     (* lines 119-120 *)
  | EvAdjustLR (step : Z)                         (* line 123 *)
  | EvVizAppend (X : list Z) (Y : list pynum)     (* lines 132-137 *)
  | EvFetch (batch : list nat)                    (* line 143 *)
  | EvOptimizerStep                               (* lines 152-158 *)
  | EvPrintTimer                                  (* line 163 *)
  | EvPrintLoss (x : F)                           (* line 164 *)
  | EvSaveStateDict (path : string)               (* lines 166-167 *)
  | EvSaveModel (path : string).                  (* line 168 *)

(** When an effect happened: before the loop, in the body of the
    iteration [i], or after the loop. *)
Inductive phase :=
  | Setup
  | Iteration (i : Z)
  | Finish.

#[export] Instance phase_eq_dec : EqDecision phase.
Proof. solve_decision. Defined.

(** ** train (lines 88-168) *)

Record train_state := {
  loc_loss : pynum;
  conf_loss : pynum;
  cum_loc_loss : pynum;
  cum_conf_loss : pynum;
  epoch : Z;
  step_index : Z;
  batch_iterator : option (list (list nat));
  optimizer : Optimizer;
  log : list (phase * event)
}.

Definition emit (p : phase) (ev : event) (s : train_state) : train_state :=
  {| loc_loss := loc_loss s; conf_loss := conf_loss s;
     cum_loc_loss := cum_loc_loss s; cum_conf_loss := cum_conf_loss s;
     epoch := epoch s; step_index := step_index s;
     batch_iterator := batch_iterator s; optimizer := optimizer s;
     log := log s ++ [(p, ev)] |}.

(** Lines 118-140, the body of [if iteration % epoch_size == 0]. *)
Definition epoch_boundary (a : args) (e : env) (iteration : Z)
    (s : train_state) : result train_state :=
  match DataLoader (dataset_len e) (batch_size a) (sampler_draws e iteration) with
  | None => Raised ValueError s
  | Some batches =>
      let log1 := log s ++ [(Iteration iteration, EvNewIterator batches)] in
      let hit := bool_decide (iteration ∈ stepvalues) in
      let step_index' := if hit then step_index s + 1 else step_index s in
      let optimizer' :=
        if hit then adjust_learning_rate a (optimizer s) (gamma a) step_index'
        else optimizer s in
      let log2 :=
        if hit then log1 ++ [(Iteration iteration, EvAdjustLR step_index')]
        else log1 in
      let cum_loc_loss' := py_add (cum_loc_loss s) (loc_loss s) in
      let cum_conf_loss' := py_add (cum_conf_loss s) (conf_loss s) in
      let epoch' := epoch s + 1 in
      let loss_list :=
        [ loc_loss s; conf_loss s; py_add (loc_loss s) (conf_loss s);
          cum_loc_loss'; cum_conf_loss'; py_add cum_loc_loss' cum_conf_loss' ] in
      let log3 :=
        if visdom a
        then log2 ++ [(Iteration iteration, EvVizAppend (replicate 6 epoch') loss_list)]
        else log2 in
      Done {| loc_loss := PyInt 0; conf_loss := PyInt 0;
              cum_loc_loss := cum_loc_loss'; cum_conf_loss := cum_conf_loss';
              epoch := epoch'; step_index := step_index';
              batch_iterator := Some batches; optimizer := optimizer';
              log := log3 |}
  end.

(** Lines 143-167, the rest of the loop body. *)
Definition batch_step (a : args) (e : env) (iteration : Z)
    (s : train_state) : result train_state :=
  match batch_iterator s with
  | None => Raised UnboundLocalError s
  | Some [] => Raised StopIteration s
  | Some (batch :: rest) =>
      let '(loss_l, loss_c, loss) := criterion_out e iteration in
      let log1 :=
        log s ++ [(Iteration iteration, EvFetch batch);
                  (Iteration iteration, EvOptimizerStep)] in
      let log2 :=
        if decide (iteration `mod` 10 = 0)
        then log1 ++ [(Iteration iteration, EvPrintTimer);
                      (Iteration iteration, EvPrintLoss loss)]
        else log1 in
      let log3 :=
        if decide (iteration `mod` 5000 = 0)
        then log2 ++ [(Iteration iteration,
                       EvSaveStateDict (("weights/ssd_iter_new" +:+ repr iteration) +:+ ".pth"))]
        else log2 in
      Done {| loc_loss := py_add (loc_loss s) (PyFloat loss_l);
              conf_loss := py_add (conf_loss s) (PyFloat loss_c);
              cum_loc_loss := cum_loc_loss s; cum_conf_loss := cum_conf_loss s;
              epoch := epoch s; step_index := step_index s;
              batch_iterator := Some rest; optimizer := optimizer s;
              log := log3 |}
  end.

(** One pass through the loop body. *)
Definition train_iteration (a : args) (e : env) (epoch_size iteration : Z)
    (s : train_state) : result train_state :=
  match py_mod iteration epoch_size with
  | None => Raised ZeroDivisionError s
  | Some r =>
      (if decide (r = 0) then epoch_boundary a e iteration s else Done s)
      >>= batch_step a e iteration
  end.

(** [for i in range(i0, i0 + k): body]. *)
Fixpoint for_range_from {S} (k : nat) (i0 : Z) (body : Z → S → result S)
    (s : S) : result S :=
  match k with
  | O => Done s
  | S k' => body i0 s >>= for_range_from k' (i0 + 1) body
  end.

Definition for_range {S} (n : Z) (body : Z → S → result S) (s : S) : result S :=
  for_range_from (Z.to_nat n) 0 body s.

(** The locals of [train] before the loop (lines 91-101); the optimiser is
    the module-level one. *)
Definition train_init (optimizer0 : Optimizer) : train_state :=
  {| loc_loss := PyInt 0; conf_loss := PyInt 0;
     cum_loc_loss := PyInt 0; cum_conf_loss := PyInt 0;
     epoch := 0; step_index := 0;
     batch_iterator := None; optimizer := optimizer0; log := [] |}.

(** Lines 102-115. *)
Definition train_setup (a : args) (optimizer0 : Optimizer) : train_state :=
  let s0 := train_init optimizer0 in
  if visdom a then emit Setup EvVizCreate s0 else s0.

(** The first [n] iterations of the loop of line 116, for the epoch size
    [epoch_size]. *)
Definition train_loop (n : Z) (a : args) (e : env) (epoch_size : Z)
    (optimizer0 : Optimizer) : result train_state :=
  for_range n (train_iteration a e epoch_size) (train_setup a optimizer0).

(** Line 168. *)
Definition save_model (a : args) (s : train_state) : result train_state :=
  Done (emit Finish
          (EvSaveModel (((save_folder a +:+ EmptyString) +:+ version a) +:+ ".pth")) s).

(** [train()] with the loop bound as a parameter. *)
Definition train_for (n : Z) (a : args) (e : env) (optimizer0 : Optimizer)
    : result train_state :=
  match py_floordiv (Z.of_nat (dataset_len e)) (batch_size a) with
  | None => Raised ZeroDivisionError (train_init optimizer0)
  | Some epoch_size => train_loop n a e epoch_size optimizer0 >>= save_model a
  end.

Definition train (a : args) (e : env) (optimizer0 : Optimizer)
    : result train_state :=
  train_for max_iter a e optimizer0.

(** ** The script: lines 45-85, then [train()] (line 182) *)

(** The module-level statements in their order: the division of line 47,
    the weight initialisation of lines 79-81, the optimiser of lines 83-84
    and the loss function of line 85.  They leave the optimiser and the
    loss function to [train()], or raise. *)
Definition module_level (a : args) (net : SSD) (g : G)
    : exn + Optimizer * MultiBoxLoss :=
  match iter_size a with
  | None => inl ZeroDivisionError
  | Some _ =>
      match initialize_weights net g with
      | Raised ex _ => inl ex
      | Done (net', _) =>
          inr (SGD (parameters net') (lr a) (momentum a) (weight_decay a),
               criterion a)
      end
  end.

(** What the whole run did: the effects of the set-up, then those of
    [train()] if it was reached. *)
Definition script (a : args) (e : env) (net : SSD) (g : G)
    : list (phase * event) * option (result train_state) :=
  match module_level a net g with
  | inl _ => ([], None)
  | inr (optimizer0, criterion0) =>
      let log0 := [(Setup, EvMultiBoxLoss criterion0)] in
      let r := train a e optimizer0 in
      (log0 ++ log (reached r), Some r)
  end.

End Model.

(** ** What a run shows

    The notions in which the properties of the loop are stated. *)

Section Observations.
Context {F : Type} `{FO : FloatOps F}.

(** The effects of iteration [j], tagged. *)
Definition tag (j : Z) (evs : list (event (F := F))) : list (phase * event) :=
  (λ ev, (Iteration j, ev)) <$> evs.

(** The effects that a log records for a phase, in order. *)
Definition events_in (p : phase) (l : list (phase * event (F := F))) : list event :=
  (filter (λ en, en.1 = p) l).*2.

(** Those of iteration [i]. *)
Definition events_at (i : Z) (l : list (phase * event (F := F))) : list event :=
  events_in (Iteration i) l.

Definition is_new_iterator (ev : event (F := F)) : bool :=
  match ev with EvNewIterator _ => true | _ => false end.
Definition is_adjust_lr (ev : event (F := F)) : bool :=
  match ev with EvAdjustLR _ => true | _ => false end.
Definition is_viz_append (ev : event (F := F)) : bool :=
  match ev with EvVizAppend _ _ => true | _ => false end.
Definition is_optimizer_step (ev : event (F := F)) : bool :=
  match ev with EvOptimizerStep => true | _ => false end.
Definition is_save_state_dict (ev : event (F := F)) : bool :=
  match ev with EvSaveStateDict _ => true | _ => false end.
Definition is_save_model (ev : event (F := F)) : bool :=
  match ev with EvSaveModel _ => true | _ => false end.
Definition is_multibox_loss (ev : event (F := F)) : bool :=
  match ev with EvMultiBoxLoss _ => true | _ => false end.

(** [sum(l)] of Python: a left fold from the int [0]. *)
Definition py_sum (l : list (pynum (F := F))) : pynum :=
  foldl py_add (PyInt 0) l.

(** The batch iterator holds enough batches to reach the next epoch
    boundary from iteration [j]. *)
Definition stocked (epoch_size j : Z) (s : train_state (F := F)) : Prop :=
  j `mod` epoch_size ≠ 0 →
  ∃ it, batch_iterator s = Some it
        ∧ epoch_size ≤ Z.of_nat (length it) + j `mod` epoch_size.

(** The six series that a logging point carries when the epoch counters
    are rolled in state [s] (lines 128-131). *)
Definition loss_list (s : train_state (F := F)) : list pynum :=
  let cum_loc_loss' := py_add (cum_loc_loss s) (loc_loss s) in
  let cum_conf_loss' := py_add (cum_conf_loss s) (conf_loss s) in
  [ loc_loss s; conf_loss s; py_add (loc_loss s) (conf_loss s);
    cum_loc_loss'; cum_conf_loss'; py_add cum_loc_loss' cum_conf_loss' ].

(** The effects of the epoch-boundary block entered in state [s]. *)
Definition boundary_events (a : args (F := F)) (e : env (F := F)) (j : Z)
    (s : train_state (F := F)) : list event :=
  match DataLoader (dataset_len e) (batch_size a) (sampler_draws e j) with
  | None => []
  | Some batches =>
      EvNewIterator batches
      :: (if bool_decide (j ∈ stepvalues)
          then [EvAdjustLR (step_index s + 1)] else [])
      ++ (if visdom a
          then [EvVizAppend (replicate 6 (epoch s + 1)) (loss_list s)] else [])
  end.

(** The effects of the rest of the body, on the batch [batch]. *)
Definition step_events (e : env (F := F)) (j : Z) (batch : list nat)
    : list (event (F := F)) :=
  [EvFetch batch; EvOptimizerStep]
  ++ (if decide (j `mod` 10 = 0)
      then [EvPrintTimer; EvPrintLoss (criterion_out e j).2] else [])
  ++ (if decide (j `mod` 5000 = 0)
      then [EvSaveStateDict (("weights/ssd_iter_new" +:+ repr j) +:+ ".pth")]
      else []).

(** The batch that iteration [j] trains on. *)
Definition batch_of (a : args (F := F)) (e : env (F := F))
    (epoch_size j : Z) (s : train_state (F := F)) : list nat :=
  let it :=
    if decide (j `mod` epoch_size = 0)
    then DataLoader (dataset_len e) (batch_size a) (sampler_draws e j)
    else batch_iterator s in
  match it with Some (batch :: _) => batch | _ => [] end.

(** All the effects of a completed iteration [j] entered in state [s]. *)
Definition iteration_events (a : args (F := F)) (e : env (F := F))
    (epoch_size j : Z) (s : train_state (F := F)) : list event :=
  (if decide (j `mod` epoch_size = 0) then boundary_events a e j s else [])
  ++ step_events e j (batch_of a e epoch_size j s).

(** The state in which iteration [n] is entered. *)
Definition state_at (n : Z) (a : args (F := F)) (e : env (F := F))
    (epoch_size : Z) (optimizer0 : Optimizer (F := F)) : train_state :=
  reached (train_loop n a e epoch_size optimizer0).

(** [len(dataset) // args.batch_size] when the batch size is not zero. *)
Definition epoch_size_of (a : args (F := F)) (e : env (F := F)) : Z :=
  Z.of_nat (dataset_len e) / batch_size a.

(** How many effects of a kind a log holds. *)
Definition count_events (K : event (F := F) → bool)
    (l : list (phase * event (F := F))) : nat :=
  length (filter (λ ev, K ev) l.*2).

(** The learning-rate changes of a log, in order: at which iteration, and
    with which step index [adjust_learning_rate] was called. *)
Definition lr_changes (l : list (phase * event (F := F))) : list (Z * Z) :=
  omap (λ en, match en with
              | (Iteration i, EvAdjustLR step) => Some (i, step)
              | _ => None
              end) l.

(** The milestones below [m] that fall on an epoch boundary. *)
Definition hits (epoch_size m : Z) : list Z :=
  filter (λ x, x < m ∧ x `mod` epoch_size = 0) stepvalues.

(** The running totals of the losses that [criterion] returns, as the
    epoch counters accumulate them over epoch [q] (iterations
    [q * epoch_size] to [(q + 1) * epoch_size - 1]). *)
Definition epoch_loc_loss (e : env (F := F)) (epoch_size q : Z) : pynum :=
  py_sum ((λ i, PyFloat (criterion_out e i).1.1) <$> seqZ (q * epoch_size) epoch_size).

Definition epoch_conf_loss (e : env (F := F)) (epoch_size q : Z) : pynum :=
  py_sum ((λ i, PyFloat (criterion_out e i).1.2) <$> seqZ (q * epoch_size) epoch_size).

(** *** The network *)

(** The weight and bias tensors of the convolutions of a module tree, and
    the non-convolutional modules with their own parameters, all in the
    order in which [apply] visits them. *)
Fixpoint conv_weights (m : module (F := F)) : list tensor :=
  match m with
  | Conv2d w _ => [w]
  | Layer _ _ cs => concat (map conv_weights cs)
  end.

Fixpoint conv_biases (m : module (F := F)) : list (option tensor) :=
  match m with
  | Conv2d _ b => [b]
  | Layer _ _ cs => concat (map conv_biases cs)
  end.

Fixpoint other_layers (m : module (F := F)) : list (string * list tensor) :=
  match m with
  | Conv2d _ _ => []
  | Layer kind ps cs => concat (map other_layers cs) ++ [(kind, ps)]
  end.

(** Every convolution of the tree has a bias tensor. *)
Fixpoint all_biased (m : module (F := F)) : bool :=
  match m with
  | Conv2d _ b => match b with Some _ => true | None => false end
  | Layer _ _ cs => forallb all_biased cs
  end.

(** [m'] is [m] initialised: the same tree, in which every convolution has
    a weight tensor of the old shape and its bias set to zero, and nothing
    else differs. *)
Inductive initialized : module (F := F) → module (F := F) → Prop :=
  | initialized_conv (w w' b : tensor) :
      shape w' = shape w →
      initialized (Conv2d w (Some b)) (Conv2d w' (Some (zero_ b)))
  | initialized_layer (kind : string) (ps : list tensor) (cs cs' : list module) :
      Forall2 initialized cs cs' →
      initialized (Layer kind ps cs) (Layer kind ps cs').

(** [apply fn] over a list of children, threading the generator. *)
Definition apply_all {G : Type} (fn : module (F := F) → G → result (module * G))
    : list module → G → result (list module * G) :=
  fix go (ms : list module) (g : G) : result (list module * G) :=
    match ms with
    | [] => Done ([], g)
    | c :: ms' =>
        match apply fn c g with
        | Done (c', g1) =>
            match go ms' g1 with
            | Done (cs', g2) => Done (c' :: cs', g2)
            | Raised e (cs', g2) => Raised e (c' :: cs', g2)
            end
        | Raised e (c', g1) => Raised e (c' :: ms', g1)
        end
    end.

(** Consecutive draws for a list of shapes. *)
Fixpoint sample_all {G : Type} (xavier_sample : G → list nat → list F * G)
    (g : G) (shapes : list (list nat)) : list (list F) * G :=
  match shapes with
  | [] => ([], g)
  | sh :: shapes' =>
      let '(xs, g1) := xavier_sample g sh in
      let '(xss, g2) := sample_all xavier_sample g1 shapes' in
      (xs :: xss, g2)
  end.

(** The convolutions of the three heads, in the order of lines 79-81. *)
Definition head_weights (net : SSD (F := F)) : list tensor :=
  conv_weights (extras net) ++ conv_weights (loc net) ++ conv_weights (conf net).

Definition head_biases (net : SSD (F := F)) : list (option tensor) :=
  conv_biases (extras net) ++ conv_biases (loc net) ++ conv_biases (conf net).

(** What [apply(weights_init)] does to a module tree whose convolutions
    all have a bias, for the sampling function [xavier_sample]. *)
Definition init_spec {G : Type} (xavier_sample : G → list nat → list F * G)
    (m : module (F := F)) : Prop :=
  all_biased m = true →
  ∀ g, ∃ m' g',
    apply (weights_init xavier_sample) m g = Done (m', g')
    ∧ initialized m m'
    ∧ (data <$> conv_weights m', g')
      = sample_all xavier_sample g (shape <$> conv_weights m)
    ∧ shape <$> conv_weights m' = shape <$> conv_weights m
    ∧ conv_biases m' = (λ b : option tensor, zero_ <$> b) <$> conv_biases m
    ∧ Forall is_Some (conv_biases m)
    ∧ other_layers m' = other_layers m.

(** The iterations in which a log records an effect of a kind. *)
Definition iterations_with (K : event (F := F) → bool)
    (l : list (phase * event (F := F))) : list Z :=
  omap (λ en, match en with
              | (Iteration i, ev) => if K ev then Some i else None
              | _ => None
              end) l.

(** *** Further observations on a run *)

Definition is_print_loss (ev : event (F := F)) : bool :=
  match ev with EvPrintLoss _ => true | _ => false end.
Definition is_print (ev : event (F := F)) : bool :=
  match ev with EvPrintTimer | EvPrintLoss _ => true | _ => false end.
Definition is_fetch (ev : event (F := F)) : bool :=
  match ev with EvFetch _ => true | _ => false end.

(** The paths of the periodic checkpoints of a log, in order. *)
Definition state_dict_paths (l : list (phase * event (F := F))) : list string :=
  omap (λ en, match en.2 with EvSaveStateDict path => Some path | _ => None end) l.

(** Line 166: the file name of the checkpoint of iteration [i]. *)
Definition checkpoint_path (i : Z) : string :=
  ("weights/ssd_iter_new" +:+ repr i) +:+ ".pth".

(** The batches of the loader created at iteration [i] (lines 119-120). *)
Definition batches_at (a : args (F := F)) (e : env (F := F)) (i : Z)
    : list (list nat) :=
  chunks (Z.to_nat (batch_size a))
    (shuffle (sampler_draws e i) (seq 0 (dataset_len e))).

(** The iterator in use at iteration [j] is the loader of the last epoch
    boundary, less the batches fetched since. *)
Definition iterator_in_step (a : args (F := F)) (e : env (F := F))
    (epoch_size j : Z) (s : train_state (F := F)) : Prop :=
  j `mod` epoch_size ≠ 0 →
  batch_iterator s
  = Some (drop (Z.to_nat (j `mod` epoch_size))
            (batches_at a e (j - j `mod` epoch_size))).

End Observations.

(** ** A concrete run, on exact rationals

    Ten images, batches of two (so five iterations per epoch), the default
    hyper-parameters; the loss of iteration [i] is [(i, 2i, 3i)]. *)

Definition demo_args : args (F := Q) :=
  {| version := "v2"; basenet := "vgg16_reducedfc.pth";
     jaccard_threshold := (1 # 2)%Q; batch_size := 2; num_workers := 4;
     iterations := 12; cuda := false; lr := (1 # 1000)%Q;
     momentum := (9 # 10)%Q; weight_decay := (5 # 10000)%Q;
     gamma := (1 # 10)%Q; log_iters := true; visdom := true;
     save_folder := "weights/" |}.

Definition demo_env : env (F := Q) :=
  {| dataset_len := 10;
     sampler_draws := λ i k, (Z.to_nat i + 3 * k)%nat;
     criterion_out := λ i, (inject_Z i, inject_Z (2 * i), inject_Z (3 * i)) |}.

Definition demo_optimizer : Optimizer (F := Q) :=
  SGD [0; 1; 2]%nat (lr demo_args) (momentum demo_args) (weight_decay demo_args).

(** Every option given another value on the command line. *)
Definition other_args : args (F := Q) :=
  {| version := "v1"; basenet := "vgg.pth";
     jaccard_threshold := (3 # 10)%Q; batch_size := 5; num_workers := 0;
     iterations := 7; cuda := true; lr := (1 # 100)%Q;
     momentum := (1 # 2)%Q; weight_decay := (1 # 1000)%Q;
     gamma := (1 # 2)%Q; log_iters := false; visdom := false;
     save_folder := "out/" |}.

(** The default hyper-parameters with [--batch_size 0] and with
    [--batch_size -2]. *)
Definition with_batch_size (b : Z) (a : args (F := Q)) : args (F := Q) :=
  {| version := version a; basenet := basenet a;
     jaccard_threshold := jaccard_threshold a; batch_size := b;
     num_workers := num_workers a; iterations := iterations a;
     cuda := cuda a; lr := lr a; momentum := momentum a;
     weight_decay := weight_decay a; gamma := gamma a;
     log_iters := log_iters a; visdom := visdom a;
     save_folder := save_folder a |}.

Definition zero_batch_args : args (F := Q) := with_batch_size 0 demo_args.
Definition negative_batch_args : args (F := Q) := with_batch_size (-2) demo_args.

(** A data set of a single image. *)
Definition single_image_env : env (F := Q) :=
  {| dataset_len := 1; sampler_draws := sampler_draws demo_env;
     criterion_out := criterion_out demo_env |}.

(** A data set of a single image with batches of one: every iteration is
    an epoch boundary. *)
Definition unit_args : args (F := Q) :=
  {| version := "v2"; basenet := "vgg16_reducedfc.pth";
     jaccard_threshold := (1 # 2)%Q; batch_size := 1; num_workers := 4;
     iterations := 120000; cuda := false; lr := (1 # 1000)%Q;
     momentum := (9 # 10)%Q; weight_decay := (5 # 10000)%Q;
     gamma := (1 # 10)%Q; log_iters := true; visdom := true;
     save_folder := "weights/" |}.

Definition unit_env : env (F := Q) :=
  {| dataset_len := 1;
     sampler_draws := λ _ _, 0%nat;
     criterion_out := λ i, (1%Q, 2%Q, 3%Q) |}.

Definition unit_optimizer : Optimizer (F := Q) :=
  SGD [0]%nat (lr unit_args) (momentum unit_args) (weight_decay unit_args).

(** Three images with batches of one: an epoch of three iterations, so
    that neither 80000 nor 100000 is an epoch boundary. *)
Definition three_env : env (F := Q) :=
  {| dataset_len := 3;
     sampler_draws := λ _ k, k;
     criterion_out := λ i, (1%Q, 2%Q, 3%Q) |}.

(** A generator that counts its draws, and a network with one extra
    convolution, one non-convolutional layer and two heads. *)
Definition demo_sample (g : nat) (sh : list nat) : list Q * nat :=
  (replicate (foldr Nat.mul 1%nat sh) (inject_Z (Z.of_nat g) + 1)%Q, S g).

Definition demo_conv (w b : Q) : module (F := Q) :=
  Conv2d {| shape := [1; 1; 1; 2]%nat; data := [w; w] |}
         (Some {| shape := [1]%nat; data := [b] |}).

Definition demo_net : SSD (F := Q) :=
  {| vgg := [demo_conv 7 7];
     extras := Layer "ModuleList" [] [demo_conv 3 4; Layer "ReLU" [] []];
     loc := Layer "ModuleList" [] [demo_conv 5 6];
     conf := Layer "ModuleList" [] [demo_conv 8 9] |}.

(** The same network with the confidence head built without bias. *)
Definition demo_net_without_bias : SSD (F := Q) :=
  {| vgg := vgg demo_net;
     extras := extras demo_net;
     loc := loc demo_net;
     conf := Layer "ModuleList" []
               [Conv2d {| shape := [1; 1; 1; 2]%nat; data := [8; 8]%Q |} None] |}.

(** * Properties *)

Section Properties.
Context {F : Type} `{FO : FloatOps F}.
Context {G : Type} (xavier_sample : G → list nat → list F * G).

Implicit Types (a : args (F := F)) (e : env (F := F)).
Implicit Types (s : train_state (F := F)) (o : Optimizer (F := F)).

(** Case analysis on the branches of one pass through the loop body. *)
Ltac iteration_cases :=
  unfold iteration_events, boundary_events, step_events;
  repeat (case_decide || case_bool_decide);
  repeat match goal with
         | |- context [visdom ?a] => destruct (visdom a)
         end;
  try done; try tauto; try (exfalso; intuition congruence).

(** ** The learning-rate schedule *)

(** C2: for every step index [step], base learning rate [lr a] and decay
    factor [gamma0], [adjust_learning_rate] leaves the optimiser with the
    same parameter groups, each of which now has the learning rate
    [lr a * gamma0 ** step] and is otherwise unchanged. *)
Theorem adjust_learning_rate_uniform a o (gamma0 : F) (step : Z) :
  let o' := adjust_learning_rate a o gamma0 step in
  let new_lr := VNum (PyFloat (fmul (lr a) (fpow gamma0 step))) in
  length (param_groups o') = length (param_groups o)
  ∧ Forall (λ param_group, param_group !! "lr" = Some new_lr) (param_groups o')
  ∧ ∀ (i : nat) (pg : gmap string pval),
      param_groups o !! i = Some pg →
      ∃ pg', param_groups o' !! i = Some pg'
             ∧ pg' !! "lr" = Some new_lr
             ∧ ∀ key : string, key ≠ "lr" → pg' !! key = pg !! key.
Proof.
  unfold adjust_learning_rate; cbn. split_and!.
  - by rewrite length_fmap.
  - apply Forall_fmap, Forall_true. intros pg. cbn. apply lookup_insert_eq.
  - intros i pg Hpg. eexists. rewrite list_lookup_fmap, Hpg. cbn.
    split_and!; [done | apply lookup_insert_eq |].
    intros key Hkey. by rewrite lookup_insert_ne.
Qed.

(** ** Bounded loops *)

Lemma for_range_from_snoc {S} (body : Z → S → result S) (k : nat) (i0 : Z) (x : S) :
  for_range_from (Datatypes.S k) i0 body x
  = for_range_from k i0 body x >>= body (i0 + Z.of_nat k).
Proof.
  revert i0 x. induction k as [|k IH]; intros i0 x.
  - cbn. rewrite Z.add_0_r. by destruct (body i0 x).
  - change (for_range_from (Datatypes.S (Datatypes.S k)) i0 body x)
      with (body i0 x >>= for_range_from (Datatypes.S k) (i0 + 1) body).
    change (for_range_from (Datatypes.S k) i0 body x)
      with (body i0 x >>= for_range_from k (i0 + 1) body).
    destruct (body i0 x) as [y|ex y]; cbn [bind]; [|done].
    replace (i0 + Z.of_nat (Datatypes.S k)) with (i0 + 1 + Z.of_nat k) by lia.
    apply IH.
Qed.

Lemma for_range_succ {S} (body : Z → S → result S) (n : Z) (x : S) :
  0 ≤ n → for_range (n + 1) body x = for_range n body x >>= body n.
Proof.
  intros Hn. unfold for_range.
  replace (Z.to_nat (n + 1)) with (Datatypes.S (Z.to_nat n)) by lia.
  rewrite for_range_from_snoc.
  by replace (0 + Z.of_nat (Z.to_nat n)) with n by lia.
Qed.

Lemma for_range_nonpos {S} (body : Z → S → result S) (n : Z) (x : S) :
  n ≤ 0 → for_range n body x = Done x.
Proof. intros Hn. unfold for_range. by replace (Z.to_nat n) with O by lia. Qed.

(** An invariant that every pass re-establishes holds when the loop ends,
    and the loop does end. *)
Lemma for_range_invariant {S} (P : Z → S → Prop) (body : Z → S → result S)
    (n : Z) (x : S) :
  0 ≤ n →
  P 0 x →
  (∀ j y, 0 ≤ j < n → P j y → ∃ y', body j y = Done y' ∧ P (j + 1) y') →
  ∃ x', for_range n body x = Done x' ∧ P n x'.
Proof.
  intros Hn H0. pattern n. apply natlike_ind; [| |done].
  - intros _. exists x. by rewrite for_range_nonpos.
  - intros m Hm IH Hstep. unfold Z.succ in *.
    destruct IH as (y & Hy & HP).
    { intros j y Hj. apply Hstep. lia. }
    rewrite for_range_succ, Hy by done. cbn. apply Hstep; [lia | done].
Qed.

(** ** The data loader *)

Lemma length_insert_at {A} (k : nat) (x : A) (l : list A) :
  length (insert_at k x l) = Datatypes.S (length l).
Proof.
  unfold insert_at. rewrite length_app. cbn.
  rewrite length_take, length_drop. lia.
Qed.

Lemma length_shuffle {A} (draws : nat → nat) (l : list A) :
  length (shuffle draws l) = length l.
Proof.
  induction l as [|x l IH]; [done|].
  cbn [shuffle]. rewrite length_insert_at. cbn. by rewrite IH.
Qed.

Lemma insert_at_Permutation {A} (k : nat) (x : A) (l : list A) :
  insert_at k x l ≡ₚ x :: l.
Proof.
  unfold insert_at. rewrite <- Permutation_middle.
  by rewrite take_drop.
Qed.

(** The loader visits every sample exactly once per epoch. *)
Lemma shuffle_Permutation {A} (draws : nat → nat) (l : list A) :
  shuffle draws l ≡ₚ l.
Proof.
  induction l as [|x l IH]; [done|].
  cbn [shuffle]. rewrite insert_at_Permutation. by rewrite IH.
Qed.

Lemma chunks_fuel_cover {A} (fuel n : nat) (l : list A) :
  (0 < n)%nat → (length l ≤ fuel)%nat →
  (length l ≤ n * length (chunks_fuel fuel n l))%nat.
Proof.
  intros Hn. revert l. induction fuel as [|fuel IH]; intros l Hl.
  - destruct l; cbn in *; lia.
  - destruct l as [|x l]; [cbn; lia|].
    cbn [chunks_fuel length].
    specialize (IH (drop n (x :: l))).
    rewrite length_drop in IH. cbn [length] in *. lia.
Qed.

Lemma chunks_fuel_concat {A} (fuel n : nat) (l : list A) :
  (0 < n)%nat → (length l ≤ fuel)%nat → concat (chunks_fuel fuel n l) = l.
Proof.
  intros Hn. revert l. induction fuel as [|fuel IH]; intros l Hl.
  - destruct l; cbn in *; [done | lia].
  - destruct l as [|x l]; [done|].
    cbn [chunks_fuel concat]. rewrite IH.
    + apply take_drop.
    + rewrite length_drop. cbn [length] in *. lia.
Qed.

(** A loader over [n] samples in batches of [b > 0] holds at least
    [n // b] batches. *)
Lemma DataLoader_stock (n : nat) (b : Z) (draws : nat → nat) :
  0 < b →
  ∃ batches, DataLoader n b draws = Some batches
             ∧ Z.of_nat n / b ≤ Z.of_nat (length batches).
Proof.
  intros Hb. unfold DataLoader. case_decide; [lia|].
  eexists; split; [done|].
  unfold chunks.
  pose proof (chunks_fuel_cover (length (shuffle draws (seq 0 n)))
                (Z.to_nat b) (shuffle draws (seq 0 n))) as Hc.
  rewrite length_shuffle, length_seq in *.
  apply Z.div_le_upper_bound; [done|]. lia.
Qed.

Lemma DataLoader_refuses (n : nat) (b : Z) (draws : nat → nat) :
  b ≤ 0 → DataLoader n b draws = None.
Proof. intros Hb. unfold DataLoader. by case_decide. Qed.

(** ** Arithmetic of the epoch counter *)

Lemma epoch_size_pos_batch (n : nat) (b : Z) : 1 ≤ Z.of_nat n / b → 0 < b.
Proof.
  intros HE. destruct (decide (0 < b)) as [|Hb]; [done|].
  destruct (decide (b = 0)) as [->|Hb0].
  - rewrite Z.div_0_r in HE. lia.
  - pose proof (Z.div_mod (Z.of_nat n) b Hb0).
    pose proof (Z.mod_neg_bound (Z.of_nat n) b). nia.
Qed.

Lemma mod_succ (j E : Z) :
  0 < E →
  (j + 1) `mod` E = if decide (j `mod` E + 1 = E) then 0 else j `mod` E + 1.
Proof.
  intros HE. pose proof (Z.mod_pos_bound j E HE).
  pose proof (Z.div_mod j E ltac:(lia)).
  case_decide.
  - symmetry. apply (Z.mod_unique_pos _ _ (j / E + 1)); lia.
  - symmetry. apply (Z.mod_unique_pos _ _ (j / E)); lia.
Qed.
(** ** One pass through the loop body *)

Lemma epoch_boundary_Done a e (j : Z) s s' :
  epoch_boundary a e j s = Done s' →
  ∃ batches,
    DataLoader (dataset_len e) (batch_size a) (sampler_draws e j) = Some batches
    ∧ batch_iterator s' = Some batches
    ∧ loc_loss s' = PyInt 0 ∧ conf_loss s' = PyInt 0
    ∧ cum_loc_loss s' = py_add (cum_loc_loss s) (loc_loss s)
    ∧ cum_conf_loss s' = py_add (cum_conf_loss s) (conf_loss s)
    ∧ epoch s' = epoch s + 1
    ∧ step_index s'
      = (if bool_decide (j ∈ stepvalues) then step_index s + 1 else step_index s)
    ∧ optimizer s'
      = (if bool_decide (j ∈ stepvalues)
         then adjust_learning_rate a (optimizer s) (gamma a) (step_index s + 1)
         else optimizer s)
    ∧ log s' = log s ++ tag j (boundary_events a e j s).
Proof.
  unfold epoch_boundary, boundary_events.
  destruct (DataLoader _ _ _) as [batches|]; [|done].
  intros [= <-]. exists batches. cbn.
  destruct (bool_decide (j ∈ stepvalues)), (visdom a); cbn;
    rewrite <- ?(assoc_L (++)); by split_and!.
Qed.

Lemma batch_step_Done a e (j : Z) s s' :
  batch_step a e j s = Done s' →
  ∃ batch rest,
    batch_iterator s = Some (batch :: rest)
    ∧ batch_iterator s' = Some rest
    ∧ loc_loss s' = py_add (loc_loss s) (PyFloat (criterion_out e j).1.1)
    ∧ conf_loss s' = py_add (conf_loss s) (PyFloat (criterion_out e j).1.2)
    ∧ cum_loc_loss s' = cum_loc_loss s
    ∧ cum_conf_loss s' = cum_conf_loss s
    ∧ epoch s' = epoch s
    ∧ step_index s' = step_index s
    ∧ optimizer s' = optimizer s
    ∧ log s' = log s ++ tag j (step_events e j batch).
Proof.
  unfold batch_step, step_events.
  destruct (batch_iterator s) as [[|batch rest]|]; [done| |done].
  destruct (criterion_out e j) as [[loss_l loss_c] loss].
  intros [= <-]. exists batch, rest. cbn.
  repeat case_decide; cbn; rewrite <- ?(assoc_L (++)); by split_and!.
Qed.

Lemma batch_step_completes a e (j : Z) s (batch : list nat) (rest : list (list nat)) :
  batch_iterator s = Some (batch :: rest) → ∃ s', batch_step a e j s = Done s'.
Proof.
  intros Hit. unfold batch_step. rewrite Hit.
  destruct (criterion_out e j) as [[loss_l loss_c] loss]. eauto.
Qed.

(** What a completed iteration did to the state. *)
Lemma train_iteration_Done a e (E j : Z) s s' :
  train_iteration a e E j s = Done s' →
  let boundary := bool_decide (j `mod` E = 0) in
  let hit := boundary && bool_decide (j ∈ stepvalues) in
  E ≠ 0
  ∧ loc_loss s' = py_add (if boundary then PyInt 0 else loc_loss s)
                         (PyFloat (criterion_out e j).1.1)
  ∧ conf_loss s' = py_add (if boundary then PyInt 0 else conf_loss s)
                          (PyFloat (criterion_out e j).1.2)
  ∧ cum_loc_loss s'
    = (if boundary then py_add (cum_loc_loss s) (loc_loss s) else cum_loc_loss s)
  ∧ cum_conf_loss s'
    = (if boundary then py_add (cum_conf_loss s) (conf_loss s) else cum_conf_loss s)
  ∧ epoch s' = (if boundary then epoch s + 1 else epoch s)
  ∧ step_index s' = (if hit then step_index s + 1 else step_index s)
  ∧ optimizer s'
    = (if hit then adjust_learning_rate a (optimizer s) (gamma a) (step_index s + 1)
       else optimizer s)
  ∧ log s' = log s ++ tag j (iteration_events a e E j s).
Proof.
  intros Hrun. cbv zeta. revert Hrun.
  unfold train_iteration, py_mod, iteration_events, batch_of.
  case_decide as HE; [done|]. intros Hrun.
  split; [done|].
  destruct (decide (j `mod` E = 0)) as [Hb|Hb].
  - rewrite (bool_decide_eq_true_2 _ Hb). cbn [andb].
    destruct (epoch_boundary a e j s) as [s1|ex s1] eqn:H1; [|done].
    cbn [bind] in Hrun.
    apply epoch_boundary_Done in H1
      as (batches & HDL & Hit1 & Hl1 & Hc1 & Hcl1 & Hcc1 & He1 & Hs1 & Ho1 & Hlog1).
    apply batch_step_Done in Hrun
      as (batch & rest & Hit & Hit' & Hl & Hc & Hcl & Hcc & He & Hs & Ho & Hlog).
    rewrite Hl, Hc, Hcl, Hcc, He, Hs, Ho, Hlog, Hl1, Hc1, Hcl1, Hcc1, He1, Hs1, Ho1, Hlog1.
    rewrite HDL. rewrite Hit1 in Hit. injection Hit as ->.
    split_and!; try done.
    unfold tag. by rewrite fmap_app, (assoc_L (++)).
  - rewrite (bool_decide_eq_false_2 _ Hb). cbn [andb bind] in *.
    apply batch_step_Done in Hrun
      as (batch & rest & Hit & Hit' & Hl & Hc & Hcl & Hcc & He & Hs & Ho & Hlog).
    rewrite Hit. split_and!; done.
Qed.

(** With at least one full batch per epoch, an iteration entered with a
    stocked iterator completes and leaves the iterator stocked. *)
Lemma train_iteration_completes a e (j : Z) s :
  let E := epoch_size_of a e in
  1 ≤ E → stocked E j s →
  ∃ s', train_iteration a e E j s = Done s' ∧ stocked E (j + 1) s'.
Proof.
  intros E HE Hst.
  assert (Hb : 0 < batch_size a) by by apply (epoch_size_pos_batch (dataset_len e)).
  assert (HEdef : Z.of_nat (dataset_len e) / batch_size a = E) by done.
  clearbody E.
  pose proof (Z.mod_pos_bound j E ltac:(lia)) as Hj.
  unfold train_iteration, py_mod. case_decide; [lia|].
  pose proof (mod_succ j E ltac:(lia)) as Hsucc.
  destruct (decide (j `mod` E = 0)) as [Hbd|Hbd].
  - destruct (DataLoader_stock (dataset_len e) (batch_size a) (sampler_draws e j) Hb)
      as (batches & HDL & Hlen).
    unfold epoch_boundary. rewrite HDL. cbn [bind].
    rewrite HEdef in Hlen.
    destruct batches as [|batch rest]; [cbn in Hlen; lia|].
    match goal with
    | |- ∃ _, batch_step _ _ _ ?s1 = _ ∧ _ =>
        destruct (batch_step_completes a e j s1 batch rest) as [s' Hs']; [done|]
    end.
    exists s'. split; [done|].
    apply batch_step_Done in Hs' as (? & ? & Hit & Hit' & _). cbn in Hit.
    injection Hit as <- <-.
    intros Hne. exists rest. split; [done|].
    cbn [length] in Hlen. rewrite Hsucc in *. case_decide; lia.
  - destruct (Hst Hbd) as (it & Hit & Hlen). cbn [bind].
    destruct it as [|batch rest]; [cbn in Hlen; lia|].
    match goal with
    | |- ∃ _, batch_step _ _ _ ?s1 = _ ∧ _ =>
        destruct (batch_step_completes a e j s1 batch rest) as [s' Hs']; [done|]
    end.
    exists s'. split; [done|].
    apply batch_step_Done in Hs' as (? & ? & Hit0 & Hit' & _).
    rewrite Hit in Hit0. injection Hit0 as <- <-.
    intros Hne. exists rest. split; [done|].
    cbn [length] in Hlen. rewrite Hsucc in *. case_decide; lia.
Qed.
(** ** Reading the log *)

Lemma events_in_app (p : phase) (l1 l2 : list (phase * event (F := F))) :
  events_in p (l1 ++ l2) = events_in p l1 ++ events_in p l2.
Proof. unfold events_in. by rewrite filter_app, fmap_app. Qed.

Lemma events_in_tag (p : phase) (j : Z) (evs : list (event (F := F))) :
  events_in p (tag j evs) = if decide (p = Iteration j) then evs else [].
Proof.
  unfold events_in, tag. induction evs as [|ev evs IH].
  - by case_decide.
  - cbn [fmap list_fmap]. rewrite filter_cons. cbn [fst].
    destruct (decide (Iteration j = p)) as [<-|Hne].
    + rewrite decide_True in * by done. cbn. by rewrite IH.
    + rewrite decide_False in * by done. done.
Qed.

Lemma events_at_tag (i j : Z) (evs : list (event (F := F))) :
  events_at i (tag j evs) = if decide (i = j) then evs else [].
Proof.
  unfold events_at. rewrite events_in_tag.
  destruct (decide (i = j)) as [->|Hne].
  - by rewrite decide_True.
  - rewrite decide_False; [done|]. by intros [= ->].
Qed.

(** ** The loop as a whole *)

Lemma train_loop_succ a e (E : Z) o (n : Z) :
  0 ≤ n →
  train_loop (n + 1) a e E o = train_loop n a e E o >>= train_iteration a e E n.
Proof. intros Hn. unfold train_loop. by apply for_range_succ. Qed.

Lemma train_loop_0 a e (E : Z) o : train_loop 0 a e E o = Done (train_setup a o).
Proof. done. Qed.

Lemma stocked_boundary (E j : Z) s : j `mod` E = 0 → stocked E j s.
Proof. intros Hj Hne. done. Qed.

(** The induction principle of the loop: with at least one full batch per
    epoch every prefix of the loop completes, and a property that each
    completed iteration carries over holds throughout. *)
Lemma train_loop_ind (Q : Z → train_state (F := F) → Prop) a e o :
  let E := epoch_size_of a e in
  1 ≤ E →
  Q 0 (train_setup a o) →
  (∀ j s s', 0 ≤ j → train_loop j a e E o = Done s → Q j s →
             train_iteration a e E j s = Done s' → Q (j + 1) s') →
  ∀ n, 0 ≤ n → ∃ s, train_loop n a e E o = Done s ∧ Q n s.
Proof.
  intros E HE H0 Hstep n Hn.
  destruct (for_range_invariant
              (λ j t, stocked E j t ∧ train_loop j a e E o = Done t ∧ Q j t)
              (train_iteration a e E) n (train_setup a o) Hn)
    as (s & Hs & _ & _ & HQ).
  - split_and!; [by apply stocked_boundary | done | done].
  - intros j t Hj (Hst & Hrun & HQ).
    destruct (train_iteration_completes a e j t HE Hst) as (t' & Ht' & Hst').
    exists t'. split_and!; try done.
    + rewrite train_loop_succ, Hrun by lia. done.
    + eapply Hstep; [lia | done..].
  - eauto.
Qed.

Lemma state_at_Done a e (E : Z) o (n : Z) s :
  train_loop n a e E o = Done s → state_at n a e E o = s.
Proof. unfold state_at. by intros ->. Qed.

(** The log of a run of [n] iterations: iteration by iteration, what the
    body did in the state in which it was entered. *)
Lemma train_loop_log a e o (n : Z) :
  let E := epoch_size_of a e in
  1 ≤ E → 0 ≤ n →
  ∃ s, train_loop n a e E o = Done s
       ∧ (∀ i, events_at i (log s)
               = if decide (0 ≤ i < n)
                 then iteration_events a e E i (state_at i a e E o) else [])
       ∧ events_in Setup (log s) = (if visdom a then [EvVizCreate] else [])
       ∧ events_in Finish (log s) = [].
Proof.
  intros E HE Hn.
  pose (Q := λ (m : Z) (t : train_state (F := F)),
          (∀ i, events_at i (log t)
                = if decide (0 ≤ i < m)
                  then iteration_events a e E i (state_at i a e E o) else [])
          ∧ events_in Setup (log t) = (if visdom a then [EvVizCreate] else [])
          ∧ events_in Finish (log t) = []).
  apply (train_loop_ind Q a e o HE); [| |done].
  - unfold Q, train_setup. destruct (visdom a); cbn; split_and!; try done.
    all: intros i; by rewrite (decide_False (P := 0 ≤ i < 0)) by lia.
  - intros j s s' Hj Hrun (Hat & Hsetup & Hfin) Hit.
    apply train_iteration_Done in Hit as (_ & _ & _ & _ & _ & _ & _ & _ & Hlog).
    unfold Q. rewrite Hlog. split_and!.
    + intros i. unfold events_at in *. rewrite events_in_app, events_in_tag, Hat.
      rewrite <- (state_at_Done _ _ _ _ _ _ Hrun).
      destruct (decide (i = j)) as [->|Hne].
      * rewrite (decide_True (P := Iteration j = Iteration j)) by done.
        rewrite (decide_False (P := 0 ≤ j < j)) by lia.
        by rewrite (decide_True (P := 0 ≤ j < j + 1)) by lia.
      * rewrite (decide_False (P := Iteration i = Iteration j)) by by intros [= ->].
        rewrite app_nil_r. repeat case_decide; done || lia.
    + by rewrite events_in_app, events_in_tag, Hsetup, decide_False, app_nil_r.
    + by rewrite events_in_app, events_in_tag, Hfin, decide_False.
Qed.

(** ** The effects of an iteration, kind by kind *)

Lemma DataLoader_Some a e (j : Z) :
  0 < batch_size a →
  DataLoader (dataset_len e) (batch_size a) (sampler_draws e j)
  = Some (chunks (Z.to_nat (batch_size a))
            (shuffle (sampler_draws e j) (seq 0 (dataset_len e)))).
Proof. intros Hb. unfold DataLoader. case_decide; [lia | done]. Qed.

Lemma new_iterator_events a e (E j : Z) s :
  0 < batch_size a →
  filter (λ ev, is_new_iterator ev) (iteration_events a e E j s)
  = if decide (j `mod` E = 0)
    then [EvNewIterator (chunks (Z.to_nat (batch_size a))
                           (shuffle (sampler_draws e j) (seq 0 (dataset_len e))))]
    else [].
Proof.
  intros Hb. unfold iteration_events, boundary_events.
  rewrite (DataLoader_Some a e j Hb). iteration_cases.
Qed.

Lemma adjust_lr_events a e (E j : Z) s :
  0 < batch_size a →
  filter (λ ev, is_adjust_lr ev) (iteration_events a e E j s)
  = if decide (j `mod` E = 0 ∧ j ∈ stepvalues)
    then [EvAdjustLR (step_index s + 1)] else [].
Proof.
  intros Hb. unfold iteration_events, boundary_events.
  rewrite (DataLoader_Some a e j Hb). iteration_cases.
Qed.

Lemma viz_append_events a e (E j : Z) s :
  0 < batch_size a →
  filter (λ ev, is_viz_append ev) (iteration_events a e E j s)
  = if decide (j `mod` E = 0 ∧ visdom a = true)
    then [EvVizAppend (replicate 6 (epoch s + 1)) (loss_list s)] else [].
Proof.
  intros Hb. unfold iteration_events, boundary_events.
  rewrite (DataLoader_Some a e j Hb).
  destruct (visdom a) eqn:Hviz; iteration_cases.
Qed.

Lemma optimizer_step_events a e (E j : Z) s :
  0 < batch_size a →
  filter (λ ev, is_optimizer_step ev) (iteration_events a e E j s)
  = [EvOptimizerStep].
Proof.
  intros Hb. unfold iteration_events, boundary_events.
  rewrite (DataLoader_Some a e j Hb). iteration_cases.
Qed.

Lemma save_state_dict_events a e (E j : Z) s :
  0 < batch_size a →
  filter (λ ev, is_save_state_dict ev) (iteration_events a e E j s)
  = if decide (j `mod` 5000 = 0)
    then [EvSaveStateDict (("weights/ssd_iter_new" +:+ repr j) +:+ ".pth")]
    else [].
Proof.
  intros Hb. unfold iteration_events, boundary_events.
  rewrite (DataLoader_Some a e j Hb). iteration_cases.
Qed.

Lemma save_model_events a e (E j : Z) s :
  filter (λ ev, is_save_model ev) (iteration_events a e E j s) = [].
Proof.
  unfold iteration_events, boundary_events.
  destruct (DataLoader _ _ _); iteration_cases.
Qed.
(** ** Paths *)

Lemma string_app_nil_r (x : string) : x +:+ EmptyString = x.
Proof.
  induction x as [|c x IH]; [done|].
  change (String c (x +:+ EmptyString) = String c x). by rewrite IH.
Qed.

Lemma string_app_assoc (x y z : string) : (x +:+ y) +:+ z = x +:+ (y +:+ z).
Proof.
  induction x as [|c x IH]; [done|].
  change (String c ((x +:+ y) +:+ z) = String c (x +:+ (y +:+ z))). by rewrite IH.
Qed.

(** ** Counting effects *)

Lemma count_events_app (K : event (F := F) → bool) (l1 l2 : list (phase * event)) :
  count_events K (l1 ++ l2) = (count_events K l1 + count_events K l2)%nat.
Proof. unfold count_events. by rewrite fmap_app, filter_app, length_app. Qed.

Lemma tag_events (j : Z) (evs : list (event (F := F))) : (tag j evs).*2 = evs.
Proof.
  unfold tag. induction evs as [|ev evs IH]; [done|].
  cbn. by rewrite IH.
Qed.

Lemma count_events_tag (K : event (F := F) → bool) (j : Z) (evs : list event) :
  count_events K (tag j evs) = length (filter (λ ev, K ev) evs).
Proof. unfold count_events. by rewrite tag_events. Qed.

(** A kind of effect that every iteration performs [c] times is found
    [c * n] times in the log of [n] iterations, besides the set-up. *)
Lemma count_events_train_loop (K : event (F := F) → bool) (c : nat) a e o (n : Z) :
  let E := epoch_size_of a e in
  (∀ j s, length (filter (λ ev, K ev) (iteration_events a e E j s)) = c) →
  1 ≤ E → 0 ≤ n →
  ∃ s, train_loop n a e E o = Done s
       ∧ count_events K (log s)
         = (count_events K (log (train_setup a o)) + c * Z.to_nat n)%nat.
Proof.
  intros E Hc HE Hn.
  pose (Q := λ (m : Z) (t : train_state (F := F)),
          count_events K (log t)
          = (count_events K (log (train_setup a o)) + c * Z.to_nat m)%nat).
  apply (train_loop_ind Q a e o HE); [| |done].
  - unfold Q. cbn. lia.
  - intros j s s' Hj Hrun HQ Hit. unfold Q in *.
    apply train_iteration_Done in Hit as (_ & _ & _ & _ & _ & _ & _ & _ & Hlog).
    rewrite Hlog, count_events_app, count_events_tag, Hc, HQ.
    replace (Z.to_nat (j + 1)) with (S (Z.to_nat j)) by lia. lia.
Qed.

(** ** The whole of [train()] *)

Lemma train_unfold a e o :
  batch_size a ≠ 0 →
  train a e o
  = train_loop max_iter a e (epoch_size_of a e) o >>= save_model a.
Proof.
  intros Hb. unfold train, train_for, py_floordiv. by case_decide.
Qed.

Lemma max_iter_nonneg : 0 ≤ max_iter.
Proof. unfold max_iter. lia. Qed.

(** With at least one full batch per epoch [train()] returns, and its log
    is the log of the loop followed by the final save. *)
Lemma train_log a e o :
  let E := epoch_size_of a e in
  1 ≤ E →
  ∃ s, train a e o = Done s
       ∧ (∃ t, train_loop max_iter a e E o = Done t
               ∧ log s = log t ++ [(Finish, EvSaveModel (save_folder a +:+ version a +:+ ".pth"))]
               ∧ step_index s = step_index t ∧ optimizer s = optimizer t
               ∧ cum_loc_loss s = cum_loc_loss t ∧ cum_conf_loss s = cum_conf_loss t)
       ∧ (∀ i, events_at i (log s)
               = if decide (0 ≤ i < max_iter)
                 then iteration_events a e E i (state_at i a e E o) else [])
       ∧ events_in Setup (log s) = (if visdom a then [EvVizCreate] else [])
       ∧ events_in Finish (log s)
         = [EvSaveModel (save_folder a +:+ version a +:+ ".pth")].
Proof.
  intros E HE.
  assert (Hb : 0 < batch_size a) by by apply (epoch_size_pos_batch (dataset_len e)).
  destruct (train_loop_log a e o max_iter HE max_iter_nonneg)
    as (t & Ht & Hat & Hsetup & Hfin).
  subst E. rewrite train_unfold, Ht by lia. cbn [bind]. unfold save_model.
  eexists. split; [done|].
  rewrite string_app_nil_r, string_app_assoc. cbn [log emit].
  split_and!.
  - exists t. by split_and!.
  - intros i. unfold events_at in *. by rewrite events_in_app, Hat, app_nil_r.
  - by rewrite events_in_app, Hsetup, app_nil_r.
  - by rewrite events_in_app, Hfin.
Qed.

(** ** Epoch boundaries *)

(** C4: when the epoch size [E = len(dataset) // batch_size] is at least 1,
    [train()] runs through all its iterations, and in iteration [i] of the
    loop it creates a batch iterator exactly once if [i mod E = 0] and not
    at all otherwise; the iterator created holds the batches of a
    reshuffling of the whole data set. *)
Theorem new_iterator_iff_epoch_boundary a e o :
  let E := epoch_size_of a e in
  1 ≤ E →
  ∃ s, train a e o = Done s
       ∧ (∀ i, 0 ≤ i < max_iter →
               (∃ batches, EvNewIterator batches ∈ events_at i (log s))
               ↔ i `mod` E = 0)
       ∧ (∀ i, filter (λ ev, is_new_iterator ev) (events_at i (log s))
               = if decide (0 ≤ i < max_iter ∧ i `mod` E = 0)
                 then [EvNewIterator
                         (chunks (Z.to_nat (batch_size a))
                            (shuffle (sampler_draws e i) (seq 0 (dataset_len e))))]
                 else [])
       ∧ (∀ i batches, EvNewIterator batches ∈ events_at i (log s) →
                       concat batches ≡ₚ seq 0 (dataset_len e)).
Proof.
  intros E HE.
  assert (Hb : 0 < batch_size a) by by apply (epoch_size_pos_batch (dataset_len e)).
  destruct (train_log a e o HE) as (s & Hs & _ & Hat & _ & _).
  assert (Hfilter : ∀ i, filter (λ ev, is_new_iterator ev) (events_at i (log s))
               = if decide (0 ≤ i < max_iter ∧ i `mod` E = 0)
                 then [EvNewIterator
                         (chunks (Z.to_nat (batch_size a))
                            (shuffle (sampler_draws e i) (seq 0 (dataset_len e))))]
                 else []).
  { intros i. rewrite Hat. destruct (decide (0 ≤ i < max_iter)) as [Hi|Hi].
    - rewrite new_iterator_events by done. repeat case_decide; done || tauto.
    - rewrite decide_False by tauto. done. }
  assert (Hmem : ∀ i batches,
             EvNewIterator batches ∈ events_at i (log s)
             ↔ EvNewIterator batches
                 ∈ filter (λ ev, is_new_iterator ev) (events_at i (log s))).
  { intros i batches. rewrite list_elem_of_filter. cbn. tauto. }
  exists s. split_and!; [done | | done |].
  - intros i Hi. setoid_rewrite Hmem. rewrite Hfilter. split.
    + intros [batches Hin]. case_decide; [tauto|]. by apply elem_of_nil in Hin.
    + intros Hbd. rewrite decide_True by done. eexists. apply list_elem_of_singleton. done.
  - intros i batches Hin. apply Hmem in Hin. rewrite Hfilter in Hin.
    case_decide; [|by apply elem_of_nil in Hin].
    apply list_elem_of_singleton in Hin. injection Hin as ->.
    unfold chunks. rewrite chunks_fuel_concat by (done || lia).
    apply shuffle_Permutation.
Qed.

(** Without a full batch per epoch the run dies before the first fetch:
    of the division of line 99 when the batch size is zero, of the modulo
    of line 117 when the epoch size is zero, and of the loader when the
    batch size is negative. *)
Lemma train_without_full_batch a e o :
  ¬ 1 ≤ epoch_size_of a e →
  ∃ ex s0, train a e o = Raised ex s0
           ∧ (ex = ZeroDivisionError ∨ ex = ValueError)
           ∧ (s0 = train_init o ∨ s0 = train_setup a o).
Proof.
  intros HE.
  destruct (decide (batch_size a = 0)) as [Hb0|Hb0].
  { exists ZeroDivisionError, (train_init o).
    unfold train, train_for, py_floordiv. rewrite decide_True by done. tauto. }
  rewrite train_unfold by done.
  unfold train_loop, for_range.
  replace (Z.to_nat max_iter) with (S (Z.to_nat (max_iter - 1)))
    by (unfold max_iter; lia).
  cbn [for_range_from]. unfold train_iteration at 1, py_mod.
  destruct (decide (epoch_size_of a e = 0)) as [HE0|HE0].
  { exists ZeroDivisionError, (train_setup a o). cbn [bind]. tauto. }
  rewrite Z.mod_0_l by done. rewrite decide_True by done.
  assert (Hneg : batch_size a ≤ 0).
  { destruct (decide (0 < batch_size a)) as [Hpos|]; [|lia].
    exfalso. unfold epoch_size_of in *.
    pose proof (Z.div_pos (Z.of_nat (dataset_len e)) (batch_size a)
                  ltac:(lia) Hpos). lia. }
  unfold epoch_boundary. rewrite DataLoader_refuses by done.
  exists ValueError, (train_setup a o). cbn [bind]. tauto.
Qed.

(** C6: on a data set that is not empty, fetching the next batch never
    finds the iterator exhausted: [train()] either returns or dies of a
    [ZeroDivisionError] (fewer samples than one batch) or a [ValueError]
    (a batch size that is not positive), and never of [StopIteration]. *)
Theorem fetch_never_exhausted a e o :
  (0 < dataset_len e)%nat →
  match train a e o with
  | Done _ => True
  | Raised ex _ => ex = ZeroDivisionError ∨ ex = ValueError
  end
  ∧ ∀ s, train a e o ≠ Raised StopIteration s.
Proof.
  intros Hlen.
  assert (Hclass : match train a e o with
                   | Done _ => True
                   | Raised ex _ => ex = ZeroDivisionError ∨ ex = ValueError
                   end).
  { destruct (decide (1 ≤ epoch_size_of a e)) as [HE|HE].
    - destruct (train_log a e o HE) as (s & -> & _). done.
    - destruct (train_without_full_batch a e o HE) as (ex & s0 & -> & Hex & _).
      done. }
  split; [done|].
  intros s Hs. rewrite Hs in Hclass. by destruct Hclass.
Qed.
(** ** The iteration budget *)

(** C10: whatever value [--iterations] was given, [train()] and the whole
    script behave the same: the setting is not read.  The loop bound is the constant
    [max_iter = 120000]: when the data set holds at least one full batch
    the loop body is executed exactly in the iterations [0 .. 119999], once
    each, which makes 120000 optimiser steps (and otherwise the run dies
    before the first one). *)
Theorem iterations_option_ignored a e o (v : Z) :
  train (set_iterations v a) e o = train a e o
  ∧ (∀ (net : SSD (F := F)) (g : G),
       script xavier_sample (set_iterations v a) e net g
       = script xavier_sample a e net g)
  ∧ max_iter = 120000
  ∧ Z.of_nat (count_events is_optimizer_step
                (log (reached (train (set_iterations v a) e o))))
    = (if decide (1 ≤ epoch_size_of a e) then 120000 else 0)
  ∧ ∀ i, length (filter (λ ev, is_optimizer_step ev)
                   (events_at i (log (reached (train (set_iterations v a) e o)))))
         = if decide (1 ≤ epoch_size_of a e ∧ 0 ≤ i < 120000)
           then 1%nat else 0%nat.
Proof.
  split; [done|]. split; [done|]. split; [done|].
  change (train (set_iterations v a) e o) with (train a e o).
  destruct (decide (1 ≤ epoch_size_of a e)) as [HE|HE].
  - assert (Hb : 0 < batch_size a)
      by by apply (epoch_size_pos_batch (dataset_len e)).
    destruct (train_log a e o HE) as (s & Hs & (t & Ht & Hlog & _) & Hat & _ & _).
    rewrite Hs. cbn [reached]. split.
    + destruct (count_events_train_loop is_optimizer_step 1 a e o max_iter)
        as (t' & Ht' & Hcount); [|done|apply max_iter_nonneg|].
      { intros j st. by rewrite optimizer_step_events. }
      rewrite Ht in Ht'. injection Ht' as <-.
      rewrite Hlog, count_events_app, Hcount.
      assert (count_events is_optimizer_step (log (train_setup a o)) = 0%nat) as ->.
      { unfold train_setup. by destruct (visdom a). }
      change (count_events is_optimizer_step
                [(Finish, EvSaveModel (save_folder a +:+ version a +:+ ".pth"))])
        with 0%nat.
      unfold max_iter. lia.
    + intros i. rewrite Hat. change max_iter with 120000.
      destruct (decide (0 ≤ i < 120000)).
      * rewrite decide_True by done. by rewrite optimizer_step_events.
      * by rewrite decide_False by tauto.
  - destruct (train_without_full_batch a e o HE) as (ex & s0 & -> & _ & Hs0).
    cbn [reached]. split.
    + destruct Hs0 as [-> | ->]; [done|].
      unfold train_setup. by destruct (visdom a).
    + intros i. rewrite decide_False by tauto.
      destruct Hs0 as [-> | ->]; [done|].
      unfold train_setup. by destruct (visdom a).
Qed.

(** ** Checkpoints *)

(** C5: when [train()] runs to its end, iteration [i] writes a [state_dict]
    checkpoint exactly if [i mod 5000 = 0] (iteration 0 included), to
    ['weights/ssd_iter_new' + repr(i) + '.pth'], and no such checkpoint is
    written outside the loop; the whole run writes exactly one full-model
    checkpoint, after the loop, to [save_folder + version + '.pth']. *)
Theorem checkpoint_cadence a e o :
  1 ≤ epoch_size_of a e →
  ∃ s, train a e o = Done s
       ∧ (∀ i, filter (λ ev, is_save_state_dict ev) (events_at i (log s))
               = if decide (0 ≤ i < max_iter ∧ i `mod` 5000 = 0)
                 then [EvSaveStateDict
                         ("weights/" +:+ "ssd_iter_new" +:+ repr i +:+ ".pth")]
                 else [])
       ∧ EvSaveStateDict "weights/ssd_iter_new0.pth" ∈ events_at 0 (log s)
       ∧ filter (λ ev, is_save_state_dict ev) (events_in Setup (log s)) = []
       ∧ filter (λ ev, is_save_state_dict ev) (events_in Finish (log s)) = []
       ∧ filter (λ ev, is_save_model ev) (log s).*2
         = [EvSaveModel (save_folder a +:+ version a +:+ ".pth")]
       ∧ last (log s)
         = Some (Finish, EvSaveModel (save_folder a +:+ version a +:+ ".pth")).
Proof.
  intros HE.
  assert (Hb : 0 < batch_size a) by by apply (epoch_size_pos_batch (dataset_len e)).
  destruct (train_log a e o HE)
    as (s & Hs & (t & Ht & Hlog & _) & Hat & Hsetup & Hfin).
  assert (Hsd : ∀ i, filter (λ ev, is_save_state_dict ev) (events_at i (log s))
               = if decide (0 ≤ i < max_iter ∧ i `mod` 5000 = 0)
                 then [EvSaveStateDict
                         ("weights/" +:+ "ssd_iter_new" +:+ repr i +:+ ".pth")]
                 else []).
  { intros i. rewrite Hat. destruct (decide (0 ≤ i < max_iter)) as [Hi|Hi].
    - rewrite save_state_dict_events by done.
      repeat case_decide; tauto || done.
    - rewrite decide_False by tauto. done. }
  assert (H0 : EvSaveStateDict "weights/ssd_iter_new0.pth" ∈ events_at 0 (log s)).
  { assert (Hin : EvSaveStateDict "weights/ssd_iter_new0.pth"
                  ∈ filter (λ ev, is_save_state_dict ev) (events_at 0 (log s))).
    { rewrite Hsd. rewrite decide_True by (unfold max_iter; done).
      apply list_elem_of_singleton. done. }
    apply list_elem_of_filter in Hin. tauto. }
  exists s. split_and!; try done.
  - rewrite Hsetup. by destruct (visdom a).
  - by rewrite Hfin.
  - destruct (count_events_train_loop is_save_model 0 a e o max_iter)
      as (t' & Ht' & Hcount); [|done|apply max_iter_nonneg|].
    { intros j st. by rewrite save_model_events. }
    rewrite Ht in Ht'. injection Ht' as <-.
    assert (Hnone : filter (λ ev, is_save_model ev) (log t).*2 = []).
    { apply length_zero_iff_nil. unfold count_events in Hcount. rewrite Hcount.
      unfold train_setup. by destruct (visdom a). }
    by rewrite Hlog, fmap_app, filter_app, Hnone.
  - rewrite Hlog. apply last_snoc.
Qed.

(** ** Learning-rate milestones *)

Lemma lr_changes_app (l1 l2 : list (phase * event (F := F))) :
  lr_changes (l1 ++ l2) = lr_changes l1 ++ lr_changes l2.
Proof. unfold lr_changes. apply omap_app. Qed.

Lemma lr_changes_tag (j : Z) (evs : list (event (F := F))) :
  lr_changes (tag j evs)
  = omap (λ ev, match ev with EvAdjustLR step => Some (j, step) | _ => None end) evs.
Proof.
  unfold lr_changes, tag. induction evs as [|ev evs IH]; [done|].
  cbn. rewrite IH. by destruct ev.
Qed.

Lemma lr_changes_iteration a e (E j : Z) s :
  0 < batch_size a →
  lr_changes (tag j (iteration_events a e E j s))
  = if decide (j `mod` E = 0 ∧ j ∈ stepvalues) then [(j, step_index s + 1)] else [].
Proof.
  intros Hb. rewrite lr_changes_tag. unfold iteration_events, boundary_events.
  rewrite (DataLoader_Some a e j Hb). iteration_cases.
Qed.

(** The milestones below [j + 1] are those below [j], and [j] itself if it
    is a milestone on an epoch boundary. *)
Lemma elem_of_stepvalues (j : Z) :
  j ∈ stepvalues ↔ j = 80000 ∨ j = 100000 ∨ j = 120000.
Proof. unfold stepvalues. rewrite !elem_of_cons, elem_of_nil. tauto. Qed.

Lemma hits_succ (E j : Z) :
  hits E (j + 1)
  = hits E j ++ (if decide (j `mod` E = 0 ∧ j ∈ stepvalues) then [j] else []).
Proof.
  pose proof (proj2 (elem_of_stepvalues 80000) ltac:(tauto)) as H1.
  pose proof (proj2 (elem_of_stepvalues 100000) ltac:(tauto)) as H2.
  pose proof (proj2 (elem_of_stepvalues 120000) ltac:(tauto)) as H3.
  unfold hits. unfold stepvalues at 1 2. rewrite !filter_cons, filter_nil.
  destruct (decide (j ∈ stepvalues)) as [Hj|Hj].
  - apply elem_of_stepvalues in Hj as [-> | [-> | ->]];
      repeat case_decide; try done; exfalso; intuition lia.
  - rewrite (decide_False (P := j `mod` E = 0 ∧ _)) by tauto.
    rewrite app_nil_r. rewrite elem_of_stepvalues in Hj.
    repeat case_decide; try done; exfalso; intuition lia.
Qed.

(** The numbering of the changes: the [k]-th one is made with step [k]. *)
Lemma lr_changes_train_loop a e o (n : Z) :
  let E := epoch_size_of a e in
  1 ≤ E → 0 ≤ n →
  ∃ s, train_loop n a e E o = Done s
       ∧ lr_changes (log s) = imap (λ k m, (m, Z.of_nat k + 1)) (hits E n)
       ∧ step_index s = Z.of_nat (length (hits E n)).
Proof.
  intros E HE Hn. subst E.
  assert (Hb : 0 < batch_size a) by by apply (epoch_size_pos_batch (dataset_len e)).
  pose (Q := λ (m : Z) (t : train_state (F := F)),
          lr_changes (log t)
          = imap (λ k m, (m, Z.of_nat k + 1)) (hits (epoch_size_of a e) m)
          ∧ step_index t = Z.of_nat (length (hits (epoch_size_of a e) m))).
  apply (train_loop_ind Q a e o HE); [| |done].
  - unfold Q, train_setup. by destruct (visdom a).
  - intros j s s' Hj Hrun [Hch Hidx] Hit. unfold Q.
    apply train_iteration_Done in Hit as (_ & _ & _ & _ & _ & _ & Hst & _ & Hlog).
    rewrite Hlog, lr_changes_app, lr_changes_iteration, Hch, Hst, hits_succ by done.
    rewrite imap_app, length_app.
    destruct (decide (j `mod` epoch_size_of a e = 0 ∧ j ∈ stepvalues))
      as [[Hbd Hin]|Hno].
    + rewrite bool_decide_eq_true_2, bool_decide_eq_true_2 by done.
      cbn [imap length andb]. rewrite Hidx. split; [|lia].
      do 3 f_equal. lia.
    + rewrite !app_nil_r. cbn [length]. rewrite Nat.add_0_r. split; [done|].
      destruct (bool_decide (j `mod` epoch_size_of a e = 0)) eqn:H1;
        destruct (bool_decide (j ∈ stepvalues)) eqn:H2; cbn [andb]; try done.
      apply bool_decide_eq_true_1 in H1, H2. tauto.
Qed.
Lemma hits_max_iter (E : Z) :
  hits E max_iter = filter (λ x, x `mod` E = 0) [80000; 100000].
Proof.
  unfold hits, stepvalues, max_iter. rewrite !filter_cons, !filter_nil.
  repeat case_decide; done || (exfalso; intuition lia).
Qed.

(** The learning-rate changes of a whole run: the milestones 80000 and
    100000 that fall on an epoch boundary, numbered from 1. *)
Lemma lr_changes_train a e o :
  let E := epoch_size_of a e in
  1 ≤ E →
  ∃ s, train a e o = Done s
       ∧ lr_changes (log s)
         = imap (λ k m, (m, Z.of_nat k + 1))
             (filter (λ x, x `mod` E = 0) [80000; 100000])
       ∧ step_index s
         = Z.of_nat (length (filter (λ x, x `mod` E = 0) [80000; 100000])).
Proof.
  intros E HE. subst E.
  destruct (train_log a e o HE)
    as (s & Hs & (t & Ht & Hlog & Hidx & _) & _).
  destruct (lr_changes_train_loop a e o max_iter HE max_iter_nonneg)
    as (t' & Ht' & Hch & Hidx').
  rewrite Ht in Ht'. injection Ht' as <-.
  exists s. split; [done|].
  rewrite Hlog, lr_changes_app, Hch, Hidx, Hidx', hits_max_iter.
  by rewrite app_nil_r.
Qed.

(** C1 (amended): in a run of [train()] that has at least one full batch
    per epoch, the learning rate is changed only in the iterations 80000
    and 100000 (never in an iteration 120000, which the loop does not
    have), at most once in each, and it is changed in each of the two that
    is an epoch boundary; the changes are made with the step indices
    1, 2, ... in this order, so that [step_index] grows by exactly one with
    each change and ends as the number of changes. *)
Theorem lr_changes_at_milestones a e o :
  let E := epoch_size_of a e in
  1 ≤ E →
  ∃ s, train a e o = Done s
       ∧ (∀ i step, (i, step) ∈ lr_changes (log s) → i = 80000 ∨ i = 100000)
       ∧ (∀ m, m = 80000 ∨ m = 100000 → m `mod` E = 0 →
               ∃ step, (m, step) ∈ lr_changes (log s))
       ∧ NoDup (lr_changes (log s)).*1
       ∧ (lr_changes (log s)).*2 = seqZ 1 (Z.of_nat (length (lr_changes (log s))))
       ∧ step_index s = Z.of_nat (length (lr_changes (log s)))
       ∧ (length (lr_changes (log s)) ≤ 2)%nat.
Proof.
  intros E HE.
  destruct (lr_changes_train a e o HE) as (s & Hs & Hch & Hidx).
  exists s. split; [done|]. fold E in Hch, Hidx. rewrite Hch, Hidx.
  rewrite !filter_cons, filter_nil.
  destruct (decide (80000 `mod` E = 0)) as [H8|H8];
    destruct (decide (100000 `mod` E = 0)) as [H10|H10];
    cbn [imap length fmap list_fmap fst snd];
    (split_and!;
     [ intros i step Hin;
       repeat (apply elem_of_cons in Hin as [[= -> ->]|Hin]; [tauto|]);
       by apply elem_of_nil in Hin
     | intros m [-> | ->] Hm; try done; eexists;
       repeat (rewrite elem_of_cons); eauto
     | by apply (bool_decide_unpack _)
     | done
     | done
     | lia ]).
Qed.
(** ** The loss counters *)

Lemma py_sum_snoc (l : list (pynum (F := F))) (x : pynum) :
  py_sum (l ++ [x]) = py_add (py_sum l) x.
Proof. unfold py_sum. apply foldl_snoc. Qed.

Lemma seqZ_snoc (m n : Z) : 0 ≤ n → seqZ m (n + 1) = seqZ m n ++ [m + n].
Proof. intros Hn. rewrite seqZ_app by lia. done. Qed.

Lemma boundary_iff_full_epoch (E n k : Z) :
  1 ≤ E → (k - 1) * E < n ≤ k * E → n `mod` E = 0 ↔ n = k * E.
Proof.
  intros HE Hk. split.
  - intros Hmod. pose proof (Z.div_mod n E ltac:(lia)) as Hdiv.
    rewrite Hmod, Z.add_0_r in Hdiv.
    assert (n `div` E = k) as <-; [|lia].
    generalize dependent (n `div` E). intros q Hq.
    assert (k - 1 < q) by nia. assert (q < k + 1) by nia. lia.
  - intros ->. apply Z.mod_mul. lia.
Qed.

(** The counters in the state in which iteration [n] is entered, [k]
    boundaries having been passed: the cumulative counters hold the
    totals of the first [k - 1] epochs, the epoch counters those of the
    iterations since the last boundary. *)
Lemma counters_train_loop a e o (n : Z) :
  let E := epoch_size_of a e in
  1 ≤ E → 0 ≤ n →
  ∃ s, train_loop n a e E o = Done s
       ∧ (n = 0 ∧ epoch s = 0 ∨ 0 < n ∧ (epoch s - 1) * E < n ≤ epoch s * E)
       ∧ cum_loc_loss s = py_sum (epoch_loc_loss e E <$> seqZ 0 (epoch s - 1))
       ∧ cum_conf_loss s = py_sum (epoch_conf_loss e E <$> seqZ 0 (epoch s - 1))
       ∧ loc_loss s
         = (if decide (n = 0) then PyInt 0
            else py_sum ((λ i, PyFloat (criterion_out e i).1.1)
                           <$> seqZ ((epoch s - 1) * E) (n - (epoch s - 1) * E)))
       ∧ conf_loss s
         = (if decide (n = 0) then PyInt 0
            else py_sum ((λ i, PyFloat (criterion_out e i).1.2)
                           <$> seqZ ((epoch s - 1) * E) (n - (epoch s - 1) * E))).
Proof.
  intros E HE Hn. subst E.
  set (E := epoch_size_of a e) in *.
  pose (Q := λ (n : Z) (s : train_state (F := F)),
    (n = 0 ∧ epoch s = 0 ∨ 0 < n ∧ (epoch s - 1) * E < n ≤ epoch s * E)
    ∧ cum_loc_loss s = py_sum (epoch_loc_loss e E <$> seqZ 0 (epoch s - 1))
    ∧ cum_conf_loss s = py_sum (epoch_conf_loss e E <$> seqZ 0 (epoch s - 1))
    ∧ loc_loss s
      = (if decide (n = 0) then PyInt 0
         else py_sum ((λ i, PyFloat (criterion_out e i).1.1)
                        <$> seqZ ((epoch s - 1) * E) (n - (epoch s - 1) * E)))
    ∧ conf_loss s
      = (if decide (n = 0) then PyInt 0
         else py_sum ((λ i, PyFloat (criterion_out e i).1.2)
                        <$> seqZ ((epoch s - 1) * E) (n - (epoch s - 1) * E)))).
  apply (train_loop_ind Q a e o HE); [| |done].
  - unfold Q, train_setup. destruct (visdom a); cbn; split_and!; by auto.
  - intros j s s' Hj Hrun (Hk & Hcl & Hcc & Hl & Hc) Hit.
    apply train_iteration_Done in Hit
      as (_ & Hl' & Hc' & Hcl' & Hcc' & He' & _).
    fold E in Hl', Hc', Hcl', Hcc', He'.
    unfold Q. rewrite Hl', Hc', Hcl', Hcc', He'. clear Hl' Hc' Hcl' Hcc' He'.
    destruct (decide (j + 1 = 0)) as [|_]; [lia|].
    destruct (decide (j `mod` E = 0)) as [Hbd|Hbd].
    + rewrite (bool_decide_eq_true_2 _ Hbd).
      assert (Hfull : j = epoch s * E).
      { destruct Hk as [[-> ->]|[Hpos Hk]]; [done|].
        by apply (boundary_iff_full_epoch E j (epoch s)). }
      replace (epoch s + 1 - 1) with (epoch s) by lia.
      replace (j + 1 - epoch s * E) with (0 + 1) by lia.
      rewrite <- Hfull, (seqZ_snoc j 0), (seqZ_nil j 0), Z.add_0_r by lia.
      cbn [fmap list_fmap app].
      assert (Hsn : 0 < j → seqZ 0 (epoch s) = seqZ 0 (epoch s - 1) ++ [epoch s - 1]).
      { intros Hpos. replace (epoch s) with (epoch s - 1 + 1) at 1 by lia.
        rewrite seqZ_snoc; [done|]. destruct Hk as [[-> ->]|[_ Hk]]; nia. }
      split_and!; [right; lia | | | reflexivity..].
      * rewrite Hcl, Hl. case_decide as H0.
        -- subst j. assert (epoch s = 0) as -> by lia. done.
        -- rewrite Hsn, fmap_app by lia. cbn [fmap list_fmap]. rewrite py_sum_snoc.
           f_equal. unfold epoch_loc_loss. do 3 f_equal. lia.
      * rewrite Hcc, Hc. case_decide as H0.
        -- subst j. assert (epoch s = 0) as -> by lia. done.
        -- rewrite Hsn, fmap_app by lia. cbn [fmap list_fmap]. rewrite py_sum_snoc.
           f_equal. unfold epoch_conf_loss. do 3 f_equal. lia.
    + rewrite (bool_decide_eq_false_2 _ Hbd).
      assert (Hpart : 0 < j ∧ (epoch s - 1) * E < j < epoch s * E).
      { destruct Hk as [[-> ->]|[Hpos Hk]]; [by rewrite Z.mod_0_l in Hbd by lia|].
        pose proof (boundary_iff_full_epoch E j (epoch s) HE Hk). intuition lia. }
      rewrite (decide_False (P := j = 0)) in Hl, Hc by lia.
      replace (j + 1 - (epoch s - 1) * E) with (j - (epoch s - 1) * E + 1) by lia.
      rewrite seqZ_snoc, !fmap_app by lia. cbn [fmap list_fmap].
      rewrite !py_sum_snoc, <- Hl, <- Hc.
      replace ((epoch s - 1) * E + (j - (epoch s - 1) * E)) with j by lia.
      split_and!; [right; lia | done..].
Qed.
(** C3: at an epoch boundary the cumulative counters take up the epoch
    counters as they stand, and only then are the epoch counters set back
    to zero.  So in the state reached after [n] iterations, [k = epoch s]
    boundaries having been passed ([k] is [n / E] rounded up), the
    cumulative counters are the sums of the epoch losses of the first
    [k - 1] epochs, where the loss of an epoch is what the epoch counter
    holds when the epoch ends.  At the first boundary the epoch counters
    are still the initial zeros, and zero is what is added. *)
Theorem cumulative_loss_one_epoch_behind a e o :
  let E := epoch_size_of a e in
  1 ≤ E →
  (∀ j s s', epoch_boundary a e j s = Done s' →
             cum_loc_loss s' = py_add (cum_loc_loss s) (loc_loss s)
             ∧ cum_conf_loss s' = py_add (cum_conf_loss s) (conf_loss s)
             ∧ loc_loss s' = PyInt 0 ∧ conf_loss s' = PyInt 0)
  ∧ (∀ n, 0 ≤ n →
          ∃ s, train_loop n a e E o = Done s
               ∧ epoch s = (n + E - 1) / E
               ∧ cum_loc_loss s
                 = py_sum (epoch_loc_loss e E <$> seqZ 0 (epoch s - 1))
               ∧ cum_conf_loss s
                 = py_sum (epoch_conf_loss e E <$> seqZ 0 (epoch s - 1))
               ∧ (0 < n → n `mod` E = 0 →
                  loc_loss s = epoch_loc_loss e E (epoch s - 1)
                  ∧ conf_loss s = epoch_conf_loss e E (epoch s - 1)))
  ∧ loc_loss (state_at 0 a e E o) = PyInt 0
  ∧ conf_loss (state_at 0 a e E o) = PyInt 0
  ∧ epoch (state_at 1 a e E o) = 1
  ∧ cum_loc_loss (state_at 1 a e E o) = PyInt 0
  ∧ cum_conf_loss (state_at 1 a e E o) = PyInt 0.
Proof.
  intros E HE. split_and!.
  - intros j s s' Hdone.
    apply epoch_boundary_Done in Hdone
      as (batches & _ & _ & Hl & Hc & Hcl & Hcc & _). done.
  - intros n Hn.
    destruct (counters_train_loop a e o n HE Hn)
      as (s & Hs & Hk & Hcl & Hcc & Hl & Hc).
    fold E in Hs, Hk, Hcl, Hcc, Hl, Hc.
    exists s. split_and!; try done.
    + destruct Hk as [[-> ->]|[Hpos Hk]].
      * symmetry. apply Z.div_small. lia.
      * apply (Z.div_unique_pos _ _ _ (n + E - 1 - epoch s * E)); lia.
    + intros Hpos Hmod. rewrite Hl, Hc.
      destruct Hk as [[-> _]|[_ Hk]]; [lia|].
      destruct (decide (n = 0)) as [|_]; [lia|].
      apply (boundary_iff_full_epoch E n (epoch s) HE Hk) in Hmod.
      unfold epoch_loc_loss, epoch_conf_loss.
      replace (n - (epoch s - 1) * E) with E by lia. done.
  - unfold state_at. rewrite train_loop_0. unfold train_setup. by destruct (visdom a).
  - unfold state_at. rewrite train_loop_0. unfold train_setup. by destruct (visdom a).
  - destruct (counters_train_loop a e o 1 HE ltac:(lia)) as (s & Hs & Hk & _).
    fold E in Hs, Hk. unfold state_at. rewrite Hs. cbn [reached]. nia.
  - destruct (counters_train_loop a e o 1 HE ltac:(lia)) as (s & Hs & Hk & Hcl & _).
    fold E in Hs, Hk, Hcl. unfold state_at. rewrite Hs. cbn [reached].
    assert (epoch s = 1) as Hone by nia. rewrite Hcl, Hone. done.
  - destruct (counters_train_loop a e o 1 HE ltac:(lia)) as (s & Hs & Hk & _ & Hcc & _).
    fold E in Hs, Hk, Hcc. unfold state_at. rewrite Hs. cbn [reached].
    assert (epoch s = 1) as Hone by nia. rewrite Hcc, Hone. done.
Qed.

(** ** The loss plot *)

(** C8: with visdom switched on, a run of [train()] that has at least one
    full batch per epoch sends exactly one point to the plot in each
    iteration that is an epoch boundary and none in any other.  The point
    has the six series: the epoch's localisation loss, its confidence
    loss, their sum, the cumulative localisation loss, the cumulative
    confidence loss (both with this epoch rolled in) and their sum. *)
Theorem viz_point_per_epoch a e o :
  let E := epoch_size_of a e in
  1 ≤ E → visdom a = true →
  ∃ s, train a e o = Done s
       ∧ ∀ i,
           filter (λ ev, is_viz_append ev) (events_at i (log s))
           = if decide (0 ≤ i < max_iter ∧ i `mod` E = 0)
             then
               let st := state_at i a e E o in
               let cum_loc := py_add (cum_loc_loss st) (loc_loss st) in
               let cum_conf := py_add (cum_conf_loss st) (conf_loss st) in
               [EvVizAppend (replicate 6 (epoch st + 1))
                  [ loc_loss st; conf_loss st;
                    py_add (loc_loss st) (conf_loss st);
                    cum_loc; cum_conf; py_add cum_loc cum_conf ]]
             else [].
Proof.
  intros E HE Hviz.
  assert (Hb : 0 < batch_size a) by by apply (epoch_size_pos_batch (dataset_len e)).
  destruct (train_log a e o HE) as (s & Hs & _ & Hat & _ & _).
  exists s. split; [done|]. intros i. rewrite Hat.
  destruct (decide (0 ≤ i < max_iter)) as [Hi|Hi].
  - rewrite viz_append_events by done. fold E.
    repeat case_decide; try done; exfalso; tauto.
  - by rewrite decide_False by tauto.
Qed.

(** ** Weight initialisation *)

(** Induction on module trees, with the children's hypotheses. *)
Lemma module_ind_nested (P : module (F := F) → Prop) :
  (∀ w b, P (Conv2d w b)) →
  (∀ kind ps cs, Forall P cs → P (Layer kind ps cs)) →
  ∀ m, P m.
Proof.
  intros Hconv Hlayer.
  fix IH 1. intros [w b|kind ps cs]; [apply Hconv|].
  apply Hlayer. induction cs as [|c cs IHcs]; constructor; [apply IH | apply IHcs].
Qed.

Lemma apply_Layer (fn : module (F := F) → G → result (module * G))
    (kind : string) (ps : list tensor) (cs : list module) (g : G) :
  apply fn (Layer kind ps cs) g
  = match apply_all fn cs g with
    | Done (cs', g') => fn (Layer kind ps cs') g'
    | Raised ex (cs', g') => Raised ex (Layer kind ps cs', g')
    end.
Proof. reflexivity. Qed.

Lemma apply_all_cons (fn : module (F := F) → G → result (module * G))
    (c : module) (ms : list module) (g : G) :
  apply_all fn (c :: ms) g
  = match apply fn c g with
    | Done (c', g1) =>
        match apply_all fn ms g1 with
        | Done (cs', g2) => Done (c' :: cs', g2)
        | Raised ex (cs', g2) => Raised ex (c' :: cs', g2)
        end
    | Raised ex (c', g1) => Raised ex (c' :: ms, g1)
    end.
Proof. reflexivity. Qed.

Lemma sample_all_app (g : G) (shs1 shs2 : list (list nat)) :
  sample_all xavier_sample g (shs1 ++ shs2)
  = let '(xss1, g1) := sample_all xavier_sample g shs1 in
    let '(xss2, g2) := sample_all xavier_sample g1 shs2 in
    (xss1 ++ xss2, g2).
Proof.
  revert g. induction shs1 as [|sh shs1 IH]; intros g; cbn.
  - by destruct (sample_all xavier_sample g shs2).
  - destruct (xavier_sample g sh) as [xs g1]. rewrite IH.
    destruct (sample_all xavier_sample g1 shs1) as [xss1 g2].
    by destruct (sample_all xavier_sample g2 shs2).
Qed.

Lemma apply_all_weights_init (cs : list (module (F := F))) :
  Forall (init_spec xavier_sample) cs →
  forallb all_biased cs = true →
  ∀ g, ∃ cs' g',
    apply_all (weights_init xavier_sample) cs g = Done (cs', g')
    ∧ Forall2 initialized cs cs'
    ∧ (data <$> concat (map conv_weights cs'), g')
      = sample_all xavier_sample g (shape <$> concat (map conv_weights cs))
    ∧ shape <$> concat (map conv_weights cs')
      = shape <$> concat (map conv_weights cs)
    ∧ concat (map conv_biases cs')
      = (λ b : option tensor, zero_ <$> b) <$> concat (map conv_biases cs)
    ∧ Forall is_Some (concat (map conv_biases cs))
    ∧ concat (map other_layers cs') = concat (map other_layers cs).
Proof.
  induction 1 as [|c cs Hc _ IH]; intros Hb g.
  - exists [], g. by split_and!.
  - cbn [forallb] in Hb. apply andb_prop in Hb as [Hbc Hbcs].
    destruct (Hc Hbc g) as (c' & g1 & Hrun & Hinit & Hw & Hsh & Hbias & Hsome & Hoth).
    destruct (IH Hbcs g1)
      as (cs' & g2 & Hruns & Hinits & Hws & Hshs & Hbiases & Hsomes & Hoths).
    exists (c' :: cs'), g2. rewrite apply_all_cons, Hrun, Hruns.
    cbn [map concat].
    split_and!; [done | by constructor | | | | |].
    + rewrite !fmap_app, sample_all_app, <- Hw, <- Hws. done.
    + by rewrite !fmap_app, Hsh, Hshs.
    + by rewrite fmap_app, Hbias, Hbiases.
    + by apply Forall_app.
    + by rewrite Hoth, Hoths.
Qed.

Lemma apply_weights_init (m : module (F := F)) : init_spec xavier_sample m.
Proof.
  induction m as [w b|kind ps cs IH] using module_ind_nested; intros Hb g.
  - destruct b as [b|]; [|done]. cbn. unfold xavier.
    destruct (xavier_sample g (shape w)) as [xs g1].
    eexists _, _. split_and!; [done | by constructor | done.. | | done].
    by repeat constructor.
  - cbn [all_biased] in Hb.
    destruct (apply_all_weights_init cs IH Hb g)
      as (cs' & g' & Hrun & Hinit & Hw & Hsh & Hbias & Hsome & Hoth).
    exists (Layer kind ps cs'), g'. rewrite apply_Layer, Hrun.
    split_and!; [done | by constructor | done.. |].
    cbn [other_layers]. by rewrite Hoth.
Qed.

(** C7: when every convolution of the extras, localisation and confidence
    heads has a bias tensor, the initialisation of lines 79-81 completes
    and leaves a network in which the base network is untouched, the
    heads are the same trees of modules, every non-convolutional module
    is unchanged, every convolution of the heads has a bias of zeros only,
    and the weights of these convolutions are, in order, consecutive
    draws of [xavier_uniform] for the old shapes: fresh values that do not
    depend on what any tensor held before. *)
Theorem heads_initialized (net : SSD (F := F)) (g : G) :
  all_biased (extras net) = true →
  all_biased (loc net) = true →
  all_biased (conf net) = true →
  ∃ net' g',
    initialize_weights xavier_sample net g = Done (net', g')
    ∧ vgg net' = vgg net
    ∧ initialized (extras net) (extras net')
    ∧ initialized (loc net) (loc net')
    ∧ initialized (conf net) (conf net')
    ∧ other_layers (extras net') = other_layers (extras net)
    ∧ other_layers (loc net') = other_layers (loc net)
    ∧ other_layers (conf net') = other_layers (conf net)
    ∧ (data <$> head_weights net', g')
      = sample_all xavier_sample g (shape <$> head_weights net)
    ∧ shape <$> head_weights net' = shape <$> head_weights net
    ∧ length (head_biases net') = length (head_biases net)
    ∧ Forall (λ b, ∃ t, b = Some t ∧ Forall (λ x, x = float_of_int 0) (data t))
        (head_biases net').
Proof.
  intros Hx Hl Hc.
  destruct (apply_weights_init (extras net) Hx g)
    as (x' & g1 & Hrun1 & Hi1 & Hw1 & Hs1 & Hb1 & Hsome1 & Ho1).
  destruct (apply_weights_init (loc net) Hl g1)
    as (l' & g2 & Hrun2 & Hi2 & Hw2 & Hs2 & Hb2 & Hsome2 & Ho2).
  destruct (apply_weights_init (conf net) Hc g2)
    as (c' & g3 & Hrun3 & Hi3 & Hw3 & Hs3 & Hb3 & Hsome3 & Ho3).
  eexists _, g3. unfold initialize_weights. rewrite Hrun1, Hrun2, Hrun3.
  split; [done|]. unfold head_weights, head_biases. cbn [vgg extras loc conf].
  split_and!; try done.
  - rewrite !fmap_app, sample_all_app, <- Hw1. cbv beta iota.
    rewrite sample_all_app, <- Hw2. cbv beta iota. by rewrite <- Hw3.
  - by rewrite !fmap_app, Hs1, Hs2, Hs3.
  - rewrite Hb1, Hb2, Hb3, !length_app, !length_fmap. done.
  - rewrite Hb1, Hb2, Hb3, <- !fmap_app. apply Forall_fmap.
    assert (Hsome : Forall is_Some
              (conv_biases (extras net) ++ conv_biases (loc net)
               ++ conv_biases (conf net))) by by repeat apply Forall_app_2.
    eapply Forall_impl; [exact Hsome|].
    intros b [t ->]. exists (zero_ t). split; [done|].
    cbn. apply Forall_fmap, Forall_true. done.
Qed.
(** ** The loss function *)

Lemma for_range_from_reached {S} (P : S → Prop) (body : Z → S → result S)
    (k : nat) (i0 : Z) (x : S) :
  (∀ j y, P y → P (reached (body j y))) →
  P x → P (reached (for_range_from k i0 body x)).
Proof.
  intros Hbody. revert i0 x. induction k as [|k IH]; intros i0 x Hx; [done|].
  cbn [for_range_from]. specialize (Hbody i0 x Hx).
  destruct (body i0 x) as [y|ex y]; cbn [bind reached] in *; [by apply IH | done].
Qed.

(** No pass through the loop body constructs a loss function, whether it
    completes or not. *)
Lemma train_iteration_multibox a e (E j : Z) s :
  count_events is_multibox_loss (log (reached (train_iteration a e E j s)))
  = count_events is_multibox_loss (log s).
Proof.
  assert (Hstep : ∀ t, count_events is_multibox_loss
                         (log (reached (batch_step a e j t)))
                       = count_events is_multibox_loss (log t)).
  { intros t. destruct (batch_step a e j t) as [t'|ex t'] eqn:Hrun.
    - apply batch_step_Done in Hrun as (batch & rest & _ & _ & _ & _ & _ & _ & _ & _ & _ & Hlog).
      cbn [reached]. rewrite Hlog, count_events_app, count_events_tag.
      assert (filter (λ ev, is_multibox_loss ev) (step_events e j batch) = []) as ->
        by (unfold step_events; repeat case_decide; done).
      cbn [length]. lia.
    - unfold batch_step in Hrun.
      destruct (batch_iterator t) as [[|batch rest]|]; try by injection Hrun as _ <-.
      by destruct (criterion_out e j) as [[? ?] ?]. }
  unfold train_iteration, py_mod. case_decide; [done|].
  case_decide; cbn [bind]; [|apply Hstep].
  destruct (epoch_boundary a e j s) as [s1|ex s1] eqn:Hrun; cbn [bind].
  - rewrite Hstep.
    apply epoch_boundary_Done in Hrun
      as (batches & HDL & _ & _ & _ & _ & _ & _ & _ & _ & Hlog).
    rewrite Hlog, count_events_app, count_events_tag.
    assert (filter (λ ev, is_multibox_loss ev) (boundary_events a e j s) = []) as ->
      by (unfold boundary_events; rewrite HDL;
          by destruct (bool_decide (j ∈ stepvalues)), (visdom a)).
    cbn [length]. lia.
  - unfold epoch_boundary in Hrun.
    destruct (DataLoader _ _ _); [done|]. by injection Hrun as _ <-.
Qed.

Lemma train_multibox a e o :
  count_events is_multibox_loss (log (reached (train a e o))) = 0%nat.
Proof.
  unfold train, train_for. destruct (py_floordiv _ _) as [E|]; [|done].
  assert (Hloop : count_events is_multibox_loss
                    (log (reached (train_loop max_iter a e E o))) = 0%nat).
  { unfold train_loop, for_range.
    apply (for_range_from_reached
             (λ t, count_events is_multibox_loss (log t) = 0%nat)).
    - intros j t Ht. by rewrite train_iteration_multibox.
    - unfold train_setup. by destruct (visdom a). }
  destruct (train_loop max_iter a e E o) as [t|ex t]; cbn [bind reached] in *; [|done].
  unfold save_model, emit. cbn [log reached]. by rewrite count_events_app, Hloop.
Qed.

(** C9: the loss function is built from the constants of line 85 alone:
    21 classes, matching threshold 0.5, hard-negative mining switched on
    with 3 negatives per positive, additional threshold 0.5, class
    balancing switched off (and [True], [0] in the third and fourth
    place); no command-line setting enters.
    A run that gets to line 85 builds it exactly once, there, as the first
    effect of the run, and [train()] never builds another one.  A run gets
    to line 85 unless the batch size is zero (line 47 divides by it) or
    the weight initialisation raises; such a run builds none. *)
Theorem criterion_fixed a e (net : SSD (F := F)) (g : G) :
  criterion a
  = {| class_count := 21; matching_threshold := float_lit (5 # 10);
       third_argument := true; fourth_argument := 0;
       hard_negative_mining := true; neg_pos_ratio := 3;
       additional_threshold := float_lit (5 # 10);
       class_balancing := false |}
  ∧ (∀ a' : args (F := F), criterion a' = criterion a)
  ∧ filter (λ ev, is_multibox_loss ev) (script xavier_sample a e net g).1.*2
    = (if decide (batch_size a = 0) then []
       else match initialize_weights xavier_sample net g with
            | Done _ => [EvMultiBoxLoss (criterion a)]
            | Raised _ _ => []
            end)
  ∧ events_in Setup (script xavier_sample a e net g).1 !! 0%nat
    = (if decide (batch_size a = 0) then None
       else match initialize_weights xavier_sample net g with
            | Done _ => Some (EvMultiBoxLoss (criterion a))
            | Raised _ _ => None
            end)
  ∧ (∀ r, (script xavier_sample a e net g).2 = Some r →
          count_events is_multibox_loss (log (reached r)) = 0%nat
          ∧ count_events is_multibox_loss (script xavier_sample a e net g).1
            = 1%nat)
  ∧ (count_events is_multibox_loss (script xavier_sample a e net g).1 ≤ 1)%nat.
Proof.
  split; [done|]. split; [done|].
  unfold script, module_level, iter_size, py_truediv.
  destruct (decide (batch_size a = 0)) as [Hb|Hb].
  { cbn. split_and!; try done. lia. }
  destruct (initialize_weights xavier_sample net g) as [[net' g']|ex ?].
  2:{ cbn. split_and!; try done. lia. }
  cbn [fst snd].
  pose proof (train_multibox a e
                (SGD (parameters net') (lr a) (momentum a) (weight_decay a)))
    as Hnone.
  assert (Hcount : count_events is_multibox_loss
            ([(Setup, EvMultiBoxLoss (criterion a))]
             ++ log (reached (train a e
                  (SGD (parameters net') (lr a) (momentum a) (weight_decay a)))))
          = 1%nat).
  { by rewrite count_events_app, Hnone. }
  split_and!.
  - rewrite fmap_app, filter_app.
    unfold count_events in Hnone. apply length_zero_iff_nil in Hnone.
    by rewrite Hnone.
  - by rewrite events_in_app.
  - intros r [= <-]. by split.
  - by rewrite Hcount.
Qed.

(** * Further properties of the driver *)

(** ** The learning rate over a run *)

(** X1: [adjust_learning_rate] does not build on the rate in force: the rate
    is computed from [args.lr] each time, so a second call overwrites the
    first. *)
Theorem adjust_learning_rate_overwrites a o (gamma1 gamma2 : F) (step1 step2 : Z) :
  adjust_learning_rate a (adjust_learning_rate a o gamma1 step1) gamma2 step2
  = adjust_learning_rate a o gamma2 step2.
Proof.
  unfold adjust_learning_rate. cbn [param_groups]. f_equal.
  rewrite <- list_fmap_compose. apply list_fmap_ext.
  intros i pg _. cbn. apply insert_insert_eq.
Qed.

(** X2: the optimiser after [n] iterations: untouched as long as no milestone
    has been hit on an epoch boundary, and otherwise the initial one with
    the rate [args.lr * args.gamma ** k] in every group, [k] being the
    number of milestones hit. *)
Theorem lr_schedule a e o (n : Z) :
  let E := epoch_size_of a e in
  1 ≤ E → 0 ≤ n →
  ∃ s, train_loop n a e E o = Done s
       ∧ step_index s = Z.of_nat (length (hits E n))
       ∧ optimizer s
         = if decide (hits E n = []) then o
           else adjust_learning_rate a o (gamma a) (Z.of_nat (length (hits E n))).
Proof.
  intros E HE Hn. subst E.
  pose (Q := λ (m : Z) (t : train_state (F := F)),
          step_index t = Z.of_nat (length (hits (epoch_size_of a e) m))
          ∧ optimizer t
            = if decide (hits (epoch_size_of a e) m = []) then o
              else adjust_learning_rate a o (gamma a)
                     (Z.of_nat (length (hits (epoch_size_of a e) m)))).
  apply (train_loop_ind Q a e o HE); [| |done].
  - unfold Q, train_setup. by destruct (visdom a).
  - intros j s s' Hj Hrun [Hidx Hopt] Hit. unfold Q.
    apply train_iteration_Done in Hit as (_ & _ & _ & _ & _ & _ & Hst & Ho & _).
    rewrite Hst, Ho, hits_succ, Hidx, Hopt. clear Hst Ho.
    destruct (decide (j `mod` epoch_size_of a e = 0 ∧ j ∈ stepvalues))
      as [[Hbd Hin]|Hno].
    + rewrite bool_decide_eq_true_2, bool_decide_eq_true_2 by done.
      cbn [andb]. rewrite length_app. cbn [length].
      replace (Z.of_nat (length (hits (epoch_size_of a e) j) + 1))
        with (Z.of_nat (length (hits (epoch_size_of a e) j)) + 1) by lia.
      split; [done|].
      rewrite (decide_False (P := _ ++ [j] = [])) by by destruct (hits _ j).
      case_decide; [done|].
      unfold adjust_learning_rate. cbn [param_groups]. f_equal.
      rewrite <- list_fmap_compose. apply list_fmap_ext.
      intros i pg _. cbn. apply insert_insert_eq.
    + rewrite app_nil_r.
      assert (bool_decide (j `mod` epoch_size_of a e = 0)
              && bool_decide (j ∈ stepvalues) = false) as ->; [|done].
      destruct (bool_decide (j `mod` epoch_size_of a e = 0)) eqn:H1;
        destruct (bool_decide (j ∈ stepvalues)) eqn:H2; cbn [andb]; try done.
      apply bool_decide_eq_true_1 in H1, H2. tauto.
Qed.

(** ** The epoch counter *)

(** X3: [epoch] counts the loaders: after any number of iterations it is the
    number of batch iterators created so far, and with visdom on also the
    number of points sent to the plot. *)
Theorem epoch_counts_iterators a e o (n : Z) :
  let E := epoch_size_of a e in
  1 ≤ E → 0 ≤ n →
  ∃ s, train_loop n a e E o = Done s
       ∧ epoch s = Z.of_nat (count_events is_new_iterator (log s))
       ∧ Z.of_nat (count_events is_viz_append (log s))
         = if visdom a then epoch s else 0.
Proof.
  intros E HE Hn. subst E.
  assert (Hb : 0 < batch_size a) by by apply (epoch_size_pos_batch (dataset_len e)).
  pose (Q := λ (m : Z) (t : train_state (F := F)),
          epoch t = Z.of_nat (count_events is_new_iterator (log t))
          ∧ Z.of_nat (count_events is_viz_append (log t))
            = if visdom a then epoch t else 0).
  apply (train_loop_ind Q a e o HE); [| |done].
  - unfold Q, train_setup. by destruct (visdom a).
  - intros j s s' Hj Hrun [Hep Hviz] Hit. unfold Q.
    apply train_iteration_Done in Hit as (_ & _ & _ & _ & _ & He & _ & _ & Hlog).
    rewrite He, Hlog, !count_events_app, !count_events_tag.
    rewrite new_iterator_events, viz_append_events by done.
    rewrite !Nat2Z.inj_add, <- Hep, Hviz.
    destruct (decide (j `mod` epoch_size_of a e = 0)) as [Hbd|Hbd].
    + rewrite bool_decide_eq_true_2 by done.
      destruct (visdom a) eqn:Hv.
      * rewrite decide_True by done. cbn [length]. lia.
      * rewrite decide_False by (intros [_ ?]; done). cbn [length]. lia.
    + rewrite bool_decide_eq_false_2 by done.
      rewrite decide_False by tauto. cbn [length]. destruct (visdom a); lia.
Qed.

(** ** How a run ends *)

Lemma train_first_iteration a e o :
  batch_size a ≠ 0 →
  train a e o
  = (train_iteration a e (epoch_size_of a e) 0 (train_setup a o)
     >>= for_range_from (Z.to_nat (max_iter - 1)) 1
           (train_iteration a e (epoch_size_of a e)))
    >>= save_model a.
Proof.
  intros Hb. rewrite train_unfold by done. unfold train_loop, for_range.
  by replace (Z.to_nat max_iter) with (S (Z.to_nat (max_iter - 1)))
    by (unfold max_iter; lia).
Qed.

(** X4: how the batch size ends a run early.  A batch size of zero is a
    division by zero in line 47: the script dies before the weights are
    initialised and before the loss function is built, whatever the
    network, and [train()] is not called.  With any other batch size
    [train()] is called once the initialisation has completed, and then a
    data set that is empty or smaller than one batch is a division by zero
    in line 117, in the first iteration, and a negative batch size with a
    data set that is not empty is refused by the loader.  So a run
    completes only if the data set holds at least one full batch of a
    positive size, and a run without one has fetched no batch, written no
    checkpoint and saved no model. *)
Theorem batch_size_ends_run a e o :
  let n := Z.of_nat (dataset_len e) in
  let b := batch_size a in
  (b = 0 → ∀ (net : SSD (F := F)) (g : G),
     module_level xavier_sample a net g = inl ZeroDivisionError
     ∧ script xavier_sample a e net g = ([], None))
  ∧ (b ≠ 0 → ∀ (net net' : SSD (F := F)) (g g' : G),
       initialize_weights xavier_sample net g = Done (net', g') →
       (script xavier_sample a e net g).2
       = Some (train a e (SGD (parameters net') (lr a) (momentum a)
                            (weight_decay a))))
  ∧ (b ≠ 0 → n < b ∨ n = 0 →
     train a e o = Raised ZeroDivisionError (train_setup a o))
  ∧ (b < 0 → 0 < n → train a e o = Raised ValueError (train_setup a o))
  ∧ (∀ s, train a e o = Done s → 0 < b ≤ n)
  ∧ (∀ (net : SSD (F := F)) (g : G) s,
       (script xavier_sample a e net g).2 = Some (Done s) → 0 < b ≤ n)
  ∧ (¬ 0 < b ≤ n → ∀ (net : SSD (F := F)) (g : G),
       events_in Finish (script xavier_sample a e net g).1 = []
       ∧ ∀ i, events_at i (script xavier_sample a e net g).1 = []).
Proof.
  intros n b. subst n b.
  assert (Hsmall : ∀ o', batch_size a ≠ 0 →
            Z.of_nat (dataset_len e) < batch_size a ∨ Z.of_nat (dataset_len e) = 0 →
            train a e o' = Raised ZeroDivisionError (train_setup a o')).
  { intros o' Hb Hn. rewrite train_first_iteration by done.
    unfold train_iteration, py_mod.
    assert (epoch_size_of a e = 0) as ->; [|done].
    unfold epoch_size_of. destruct Hn as [Hn| ->].
    - apply Z.div_small. lia.
    - apply Z.div_0_l. done. }
  assert (Hneg : ∀ o', batch_size a < 0 → 0 < Z.of_nat (dataset_len e) →
            train a e o' = Raised ValueError (train_setup a o')).
  { intros o' Hb Hn. rewrite train_first_iteration by lia.
    unfold train_iteration, py_mod.
    assert (HE : epoch_size_of a e ≠ 0).
    { unfold epoch_size_of. intros Hq.
      pose proof (Z.div_mod (Z.of_nat (dataset_len e)) (batch_size a) ltac:(lia)) as Hdm.
      pose proof (Z.mod_neg_bound (Z.of_nat (dataset_len e)) (batch_size a) Hb).
      rewrite Hq in Hdm. lia. }
    rewrite decide_False by done. rewrite Z.mod_0_l by done.
    rewrite decide_True by done.
    unfold epoch_boundary. by rewrite DataLoader_refuses by lia. }
  assert (Hdead : ∀ o', batch_size a ≠ 0 →
            ¬ 0 < batch_size a ≤ Z.of_nat (dataset_len e) →
            ∃ ex, train a e o' = Raised ex (train_setup a o')).
  { intros o' Hb0 Hnot. destruct (decide (0 < batch_size a)) as [Hpos|Hnpos].
    - exists ZeroDivisionError. apply Hsmall; [done | lia].
    - destruct (decide (Z.of_nat (dataset_len e) = 0)) as [Hn0|Hn0].
      + exists ZeroDivisionError. apply Hsmall; [done | tauto].
      + exists ValueError. apply Hneg; lia. }
  assert (Hdone : ∀ o' s, train a e o' = Done s →
            0 < batch_size a ≤ Z.of_nat (dataset_len e)).
  { intros o' s Hs.
    destruct (decide (0 < batch_size a ≤ Z.of_nat (dataset_len e))) as [|Hnot];
      [done|].
    destruct (decide (batch_size a = 0)) as [Hb0|Hb0].
    - unfold train, train_for, py_floordiv in Hs. by rewrite decide_True in Hs.
    - destruct (Hdead o' Hb0 Hnot) as (ex & Hex). by rewrite Hex in Hs. }
  split_and!.
  - intros Hb net g. unfold script, module_level, iter_size, py_truediv.
    by rewrite decide_True.
  - intros Hb net net' g g' Hinit.
    unfold script, module_level, iter_size, py_truediv.
    rewrite decide_False by done. by rewrite Hinit.
  - apply Hsmall.
  - apply Hneg.
  - apply Hdone.
  - intros net g s. unfold script, module_level.
    destruct (iter_size a); [|done].
    destruct (initialize_weights xavier_sample net g) as [[net' g']|ex ?]; [|done].
    cbn [snd]. intros [= Hs]. by apply Hdone in Hs.
  - intros Hnot net g. unfold script, module_level, iter_size, py_truediv.
    destruct (decide (batch_size a = 0)) as [Hb0|Hb0]; [done|].
    destruct (initialize_weights xavier_sample net g) as [[net' g']|ex ?]; [|done].
    cbn [fst].
    destruct (Hdead (SGD (parameters net') (lr a) (momentum a) (weight_decay a))
                Hb0 Hnot) as (ex & ->).
    cbn [reached]. unfold train_setup. by destruct (visdom a).
Qed.

(** ** Periodic effects *)

Lemma filter_none {A} (P : A → Prop) `{∀ x, Decision (P x)} (l : list A) :
  (∀ x, x ∈ l → ¬ P x) → filter P l = [].
Proof.
  induction l as [|x l IH]; intros Hl; [done|].
  rewrite filter_cons_False by (apply Hl; left).
  apply IH. intros y Hy. apply Hl. by right.
Qed.

(** The multiples of [d] below [d * k]. *)
Lemma filter_multiples (d k : Z) :
  0 < d → 0 ≤ k →
  filter (λ i, i `mod` d = 0) (seqZ 0 (d * k)) = (λ q, d * q) <$> seqZ 0 k.
Proof.
  intros Hd Hk. pattern k. apply natlike_ind; [| |done].
  - by rewrite Z.mul_0_r.
  - intros q Hq IH. unfold Z.succ.
    rewrite Z.mul_add_distr_l, Z.mul_1_r, seqZ_app, filter_app, IH by lia.
    rewrite seqZ_snoc, fmap_app by done. f_equal. cbn [fmap list_fmap].
    rewrite seqZ_cons, filter_cons_True by (lia || (rewrite Z.mul_comm; apply Z.mod_mul; lia)).
    f_equal. apply filter_none. intros x Hx Hmod.
    apply elem_of_seqZ in Hx.
    pose proof (Z.div_mod x d ltac:(lia)) as Hdm. rewrite Hmod, Z.add_0_r in Hdm.
    generalize dependent (x `div` d). intros r Hr.
    assert (q < r) by nia. assert (r < q + 1) by nia. lia.
Qed.

Lemma iterations_with_app (K : event (F := F) → bool) (l1 l2 : list (phase * event)) :
  iterations_with K (l1 ++ l2) = iterations_with K l1 ++ iterations_with K l2.
Proof. unfold iterations_with. apply omap_app. Qed.

Lemma iterations_with_tag (K : event (F := F) → bool) (j : Z) (evs : list event) :
  iterations_with K (tag j evs) = replicate (length (filter (λ ev, K ev) evs)) j.
Proof.
  unfold iterations_with, tag. induction evs as [|ev evs IH]; [done|].
  cbn [fmap list_fmap omap list_omap]. rewrite filter_cons.
  destruct (K ev); cbn.
  - rewrite decide_True by done. cbn. f_equal. exact IH.
  - rewrite decide_False by tauto. exact IH.
Qed.

(** An effect that iteration [j] performs once if [P j] and not at all
    otherwise is logged for the iterations below [n] that satisfy [P]. *)
Lemma iterations_with_train_loop (K : event (F := F) → bool)
    (P : Z → Prop) `{∀ j, Decision (P j)} a e o (n : Z) :
  let E := epoch_size_of a e in
  (∀ j s, length (filter (λ ev, K ev) (iteration_events a e E j s))
          = if decide (P j) then 1%nat else 0%nat) →
  1 ≤ E → 0 ≤ n →
  ∃ s, train_loop n a e E o = Done s
       ∧ iterations_with K (log s) = filter P (seqZ 0 n).
Proof.
  intros E HK HE Hn. subst E.
  pose (Q := λ (m : Z) (t : train_state (F := F)),
          iterations_with K (log t) = filter P (seqZ 0 m)).
  apply (train_loop_ind Q a e o HE); [| |done].
  - unfold Q, train_setup. by destruct (visdom a).
  - intros j s s' Hj Hrun HQ Hit. unfold Q in *.
    apply train_iteration_Done in Hit as (_ & _ & _ & _ & _ & _ & _ & _ & Hlog).
    rewrite Hlog, iterations_with_app, iterations_with_tag, HK, HQ.
    rewrite (seqZ_snoc 0 j Hj), Z.add_0_l, filter_app, (filter_singleton P j []).
    by case_decide.
Qed.

Lemma print_events a e (E j : Z) s :
  0 < batch_size a →
  filter (λ ev, is_print ev) (iteration_events a e E j s)
  = if decide (j `mod` 10 = 0)
    then [EvPrintTimer; EvPrintLoss (criterion_out e j).2] else [].
Proof.
  intros Hb. unfold iteration_events, boundary_events.
  rewrite (DataLoader_Some a e j Hb). iteration_cases.
Qed.

Lemma print_loss_events a e (E j : Z) s :
  0 < batch_size a →
  filter (λ ev, is_print_loss ev) (iteration_events a e E j s)
  = if decide (j `mod` 10 = 0) then [EvPrintLoss (criterion_out e j).2] else [].
Proof.
  intros Hb. unfold iteration_events, boundary_events.
  rewrite (DataLoader_Some a e j Hb). iteration_cases.
Qed.

(** X5: lines 162-164: a run that completes prints the timer and then the
    total loss of the iteration in every tenth iteration, iteration 0
    included, and in no other; that makes the 12000 iterations
    0, 10, ..., 119990.  The [--log_iters] setting does not enter. *)
Theorem print_cadence a e o :
  1 ≤ epoch_size_of a e →
  ∃ s, train a e o = Done s
       ∧ (∀ i, filter (λ ev, is_print ev) (events_at i (log s))
               = if decide (0 ≤ i < max_iter ∧ i `mod` 10 = 0)
                 then [EvPrintTimer; EvPrintLoss (criterion_out e i).2]
                 else [])
       ∧ iterations_with is_print_loss (log s) = (λ q, 10 * q) <$> seqZ 0 12000.
Proof.
  intros HE.
  assert (Hb : 0 < batch_size a) by by apply (epoch_size_pos_batch (dataset_len e)).
  destruct (train_log a e o HE) as (s & Hs & (t & Ht & Hlog & _) & Hat & _ & _).
  exists s. split; [done|]. split.
  - intros i. rewrite Hat. destruct (decide (0 ≤ i < max_iter)) as [Hi|Hi].
    + rewrite print_events by done. repeat case_decide; tauto || done.
    + by rewrite decide_False by tauto.
  - destruct (iterations_with_train_loop is_print_loss (λ j, j `mod` 10 = 0)
                a e o max_iter) as (t' & Ht' & Hprints);
      [|done|apply max_iter_nonneg|].
    { intros j st. rewrite print_loss_events by done. by case_decide. }
    rewrite Ht in Ht'. injection Ht' as <-.
    rewrite Hlog, iterations_with_app, Hprints, app_nil_r.
    change max_iter with (10 * 12000). by apply filter_multiples.
Qed.

(** ** Checkpoint files *)

Lemma string_length_app (x y : string) :
  String.length (x +:+ y) = (String.length x + String.length y)%nat.
Proof.
  induction x as [|c x IH]; [done|].
  change (S (String.length (x +:+ y)) = S (String.length x + String.length y)).
  by rewrite IH.
Qed.

Lemma string_app_inj_r (z x y : string) : x +:+ z = y +:+ z → x = y.
Proof.
  revert y. induction x as [|c x IH]; intros [|c' y] Heq; [done| | |].
  - apply (f_equal String.length) in Heq.
    change (EmptyString +:+ z) with z in Heq.
    rewrite string_length_app in Heq. cbn in Heq. lia.
  - apply (f_equal String.length) in Heq.
    change (EmptyString +:+ z) with z in Heq.
    rewrite string_length_app in Heq. cbn in Heq. lia.
  - change (String c (x +:+ z) = String c' (y +:+ z)) in Heq.
    injection Heq as -> Heq. f_equal. by apply IH.
Qed.

(** Different iterations have different checkpoint files. *)
Lemma checkpoint_path_inj : Inj (=) (=) checkpoint_path.
Proof.
  intros i j Heq. unfold checkpoint_path, repr in Heq.
  apply string_app_inj_r, (inj (String.app _)) in Heq.
  by apply (inj pretty) in Heq.
Qed.

Lemma state_dict_paths_app (l1 l2 : list (phase * event (F := F))) :
  state_dict_paths (l1 ++ l2) = state_dict_paths l1 ++ state_dict_paths l2.
Proof. unfold state_dict_paths. apply omap_app. Qed.

Lemma state_dict_paths_iteration a e (E j : Z) s :
  0 < batch_size a →
  state_dict_paths (tag j (iteration_events a e E j s))
  = if decide (j `mod` 5000 = 0) then [checkpoint_path j] else [].
Proof.
  intros Hb. unfold state_dict_paths, tag, iteration_events, boundary_events.
  rewrite (DataLoader_Some a e j Hb). unfold checkpoint_path. iteration_cases.
Qed.

(** X6: lines 165-167: a run that completes writes 24 periodic checkpoints,
    those of the iterations 0, 5000, ..., 115000 in this order, each to a
    file of its own, so that none overwrites another. *)
Theorem periodic_checkpoints a e o :
  1 ≤ epoch_size_of a e →
  ∃ s, train a e o = Done s
       ∧ state_dict_paths (log s)
         = (λ q, checkpoint_path (5000 * q)) <$> seqZ 0 24
       ∧ length (state_dict_paths (log s)) = 24%nat
       ∧ NoDup (state_dict_paths (log s)).
Proof.
  intros HE.
  assert (Hb : 0 < batch_size a) by by apply (epoch_size_pos_batch (dataset_len e)).
  destruct (train_log a e o HE) as (s & Hs & (t & Ht & Hlog & _) & _).
  pose (Q := λ (m : Z) (t : train_state (F := F)),
          state_dict_paths (log t)
          = checkpoint_path <$> filter (λ i, i `mod` 5000 = 0) (seqZ 0 m)).
  destruct (train_loop_ind Q a e o HE) with (n := max_iter)
    as (t' & Ht' & Hpaths); [| |apply max_iter_nonneg|].
  { unfold Q, train_setup. by destruct (visdom a). }
  { intros j u u' Hj Hrun HQ Hit. unfold Q in *.
    apply train_iteration_Done in Hit as (_ & _ & _ & _ & _ & _ & _ & _ & Hl).
    rewrite Hl, state_dict_paths_app, state_dict_paths_iteration, HQ by done.
    rewrite (seqZ_snoc 0 j Hj), Z.add_0_l, filter_app, fmap_app.
    rewrite (filter_singleton (λ i, i `mod` 5000 = 0) j []).
    by case_decide. }
  rewrite Ht in Ht'. injection Ht' as <-. unfold Q in Hpaths.
  assert (Hall : state_dict_paths (log s)
                 = (λ q, checkpoint_path (5000 * q)) <$> seqZ 0 24).
  { rewrite Hlog, state_dict_paths_app, Hpaths, app_nil_r.
    change max_iter with (5000 * 24).
    rewrite filter_multiples by lia.
    change (λ q, checkpoint_path (5000 * q))
      with (checkpoint_path ∘ (λ q, 5000 * q)).
    rewrite list_fmap_compose. reflexivity. }
  exists s. split; [done|]. split; [done|]. rewrite Hall. split.
  - by rewrite length_fmap, length_seqZ.
  - apply NoDup_fmap_2_strong; [|apply NoDup_seqZ].
    intros q q' _ _ Heq. apply checkpoint_path_inj in Heq. lia.
Qed.

(** ** What the plot shows *)

(** X7: with visdom on, the point sent when epoch [q] starts (iteration
    [q * E]) has the abscissa [q + 1] and shows the losses of the epoch
    just ended and the totals over all the epochs ended so far; the first
    point, of iteration 0, is made of the ints [0]. *)
Theorem plotted_point a e o (q : Z) :
  let E := epoch_size_of a e in
  1 ≤ E → visdom a = true → 0 ≤ q → q * E < max_iter →
  ∃ s, train a e o = Done s
       ∧ filter (λ ev, is_viz_append ev) (events_at (q * E) (log s))
         = let loc := if decide (q = 0) then PyInt 0
                      else epoch_loc_loss e E (q - 1) in
           let conf := if decide (q = 0) then PyInt 0
                       else epoch_conf_loss e E (q - 1) in
           let cum_loc := py_sum (epoch_loc_loss e E <$> seqZ 0 q) in
           let cum_conf := py_sum (epoch_conf_loss e E <$> seqZ 0 q) in
           [EvVizAppend (replicate 6 (q + 1))
              [loc; conf; py_add loc conf;
               cum_loc; cum_conf; py_add cum_loc cum_conf]].
Proof.
  intros E HE Hviz Hq Hlt. subst E. set (E := epoch_size_of a e) in *.
  assert (Hb : 0 < batch_size a) by by apply (epoch_size_pos_batch (dataset_len e)).
  destruct (train_log a e o HE) as (s & Hs & _ & Hat & _ & _).
  destruct (counters_train_loop a e o (q * E) HE ltac:(nia))
    as (st & Hst & Hk & Hcl & Hcc & Hl & Hc).
  fold E in Hat, Hst, Hk, Hcl, Hcc, Hl, Hc.
  exists s. split; [done|].
  rewrite Hat, decide_True by nia. rewrite viz_append_events by done.
  rewrite decide_True by (split; [apply Z.mod_mul; lia | done]).
  rewrite (state_at_Done _ _ _ _ _ _ Hst).
  assert (Hep : epoch st = q).
  { destruct Hk as [[H0 ->]|[Hpos Hk]]; [nia|].
    assert (q - 1 < epoch st) by nia. assert (epoch st - 1 < q) by nia. lia. }
  assert (Hsn : q ≠ 0 → seqZ 0 q = seqZ 0 (q - 1) ++ [q - 1]).
  { intros Hq0. replace q with (q - 1 + 1) at 1 by lia. by rewrite seqZ_snoc by lia. }
  assert (HL : loc_loss st
               = if decide (q = 0) then PyInt 0 else epoch_loc_loss e E (q - 1)).
  { rewrite Hl, Hep. destruct (decide (q = 0)) as [->|Hq0].
    - by rewrite decide_True by lia.
    - rewrite decide_False by nia. unfold epoch_loc_loss.
      by replace (q * E - (q - 1) * E) with E by lia. }
  assert (HC : conf_loss st
               = if decide (q = 0) then PyInt 0 else epoch_conf_loss e E (q - 1)).
  { rewrite Hc, Hep. destruct (decide (q = 0)) as [->|Hq0].
    - by rewrite decide_True by lia.
    - rewrite decide_False by nia. unfold epoch_conf_loss.
      by replace (q * E - (q - 1) * E) with E by lia. }
  assert (HCL : py_add (cum_loc_loss st) (loc_loss st)
                = py_sum (epoch_loc_loss e E <$> seqZ 0 q)).
  { rewrite Hcl, HL, Hep. destruct (decide (q = 0)) as [->|Hq0]; [done|].
    rewrite (Hsn Hq0), fmap_app. cbn [fmap list_fmap]. by rewrite py_sum_snoc. }
  assert (HCC : py_add (cum_conf_loss st) (conf_loss st)
                = py_sum (epoch_conf_loss e E <$> seqZ 0 q)).
  { rewrite Hcc, HC, Hep. destruct (decide (q = 0)) as [->|Hq0]; [done|].
    rewrite (Hsn Hq0), fmap_app. cbn [fmap list_fmap]. by rewrite py_sum_snoc. }
  unfold loss_list. cbv zeta. by rewrite HCL, HCC, HL, HC, Hep.
Qed.

(** ** A convolution without bias *)

Lemma apply_all_without_bias (cs : list (module (F := F))) :
  Forall (λ m, all_biased m = false →
               ∀ g, ∃ m' g', apply (weights_init xavier_sample) m g
                             = Raised AttributeError (m', g')) cs →
  forallb all_biased cs = false →
  ∀ g, ∃ cs' g', apply_all (weights_init xavier_sample) cs g
                 = Raised AttributeError (cs', g').
Proof.
  induction 1 as [|c cs Hc _ IH]; intros Hb g; [done|].
  cbn [forallb] in Hb. rewrite apply_all_cons.
  destruct (all_biased c) eqn:Hbc.
  - destruct (apply_weights_init c Hbc g) as (c' & g1 & -> & _).
    destruct (IH Hb g1) as (cs' & g2 & ->). eauto.
  - destruct (Hc eq_refl g) as (c' & g1 & ->). eauto.
Qed.

(** [weights_init] takes the bias of every convolution for granted: on a
    tree with a convolution built without bias the traversal dies of an
    [AttributeError], at the first such convolution. *)
Lemma apply_without_bias (m : module (F := F)) (g : G) :
  all_biased m = false →
  ∃ m' g', apply (weights_init xavier_sample) m g = Raised AttributeError (m', g').
Proof.
  revert g. induction m as [w b|kind ps cs IH] using module_ind_nested;
    intros g Hb.
  - destruct b as [b|]; [done|]. cbn. unfold xavier.
    destruct (xavier_sample g (shape w)) as [xs g1]. eauto.
  - cbn [all_biased] in Hb. rewrite apply_Layer.
    destruct (apply_all_without_bias cs) with (g := g) as (cs' & g' & ->);
      [|done|eauto].
    eapply Forall_impl; [exact IH|]. intros c Hc Hbc g0. by apply Hc.
Qed.

(** X8: if a head holds a convolution without bias, the initialisation of
    lines 79-81 dies of an [AttributeError] with the base network
    untouched, and the script ends there: no optimiser, no loss function,
    no training. *)
Theorem initialization_needs_biases (net : SSD (F := F)) (g : G) :
  all_biased (extras net) && all_biased (loc net) && all_biased (conf net) = false →
  ∃ net' g',
    initialize_weights xavier_sample net g = Raised AttributeError (net', g')
    ∧ vgg net' = vgg net
    ∧ ∀ a e, script xavier_sample a e net g = ([], None).
Proof.
  intros Hb.
  assert (Hraise : ∃ net' g',
            initialize_weights xavier_sample net g
            = Raised AttributeError (net', g') ∧ vgg net' = vgg net).
  { unfold initialize_weights.
    destruct (all_biased (extras net)) eqn:Hx.
    - destruct (apply_weights_init (extras net) Hx g) as (x' & g1 & -> & _).
      destruct (all_biased (loc net)) eqn:Hl.
      + destruct (apply_weights_init (loc net) Hl g1) as (l' & g2 & -> & _).
        cbn [andb] in Hb.
        destruct (apply_without_bias (conf net) g2 Hb) as (c' & g3 & ->). eauto.
      + destruct (apply_without_bias (loc net) g1 Hl) as (l' & g2 & ->). eauto.
    - destruct (apply_without_bias (extras net) g Hx) as (x' & g1 & ->). eauto. }
  destruct Hraise as (net' & g' & Hrun & Hvgg).
  exists net', g'. split; [done|]. split; [done|].
  intros a e. unfold script, module_level.
  destruct (iter_size a); [|done]. by rewrite Hrun.
Qed.

(** ** The batches that are fetched *)

Lemma chunks_fuel_lookup {A} (fuel k : nat) (l : list A) (r : nat) (c : list A) :
  (0 < k)%nat → (length l ≤ fuel)%nat →
  chunks_fuel fuel k l !! r = Some c →
  c = take k (drop (r * k) l) ∧ (r * k < length l)%nat.
Proof.
  intros Hk. revert l r. induction fuel as [|fuel IH]; intros l r Hl Hc.
  - by destruct l.
  - destruct l as [|x l]; [done|]. cbn [chunks_fuel] in Hc.
    destruct r as [|r].
    + injection Hc as <-. split; [done | cbn; lia].
    + cbn [lookup list_lookup] in Hc.
      apply IH in Hc as [-> Hlt]; [|rewrite length_drop; cbn [length] in *; lia].
      rewrite length_drop in Hlt. rewrite drop_drop.
      split; [done | lia].
Qed.

Lemma train_loop_Done a e o (n : Z) :
  1 ≤ epoch_size_of a e →
  ∃ s, train_loop n a e (epoch_size_of a e) o = Done s.
Proof.
  intros HE. destruct (decide (0 ≤ n)) as [Hn|Hn].
  - destruct (train_loop_ind (λ _ _, True) a e o HE I) with (n := n)
      as (s & Hs & _); eauto.
  - exists (train_setup a o). unfold train_loop. apply for_range_nonpos. lia.
Qed.

(** The batch that a completed iteration trained on is the head of the
    iterator in use, and the iterator is left with the rest. *)
Lemma train_iteration_iterator a e (E j : Z) s s' :
  train_iteration a e E j s = Done s' →
  ∃ rest,
    (if decide (j `mod` E = 0)
     then DataLoader (dataset_len e) (batch_size a) (sampler_draws e j)
     else batch_iterator s) = Some (batch_of a e E j s :: rest)
    ∧ batch_iterator s' = Some rest.
Proof.
  unfold train_iteration, py_mod, batch_of. case_decide; [done|].
  destruct (decide (j `mod` E = 0)) as [Hbd|Hbd]; intros Hrun.
  - destruct (epoch_boundary a e j s) as [s1|ex s1] eqn:H1; [|done].
    cbn [bind] in Hrun.
    apply epoch_boundary_Done in H1 as (batches & HDL & Hit1 & _).
    apply batch_step_Done in Hrun as (batch & rest & Hit & Hit' & _).
    rewrite HDL. rewrite Hit1 in Hit. injection Hit as ->. eauto.
  - cbn [bind] in Hrun.
    apply batch_step_Done in Hrun as (batch & rest & Hit & Hit' & _).
    rewrite Hit. eauto.
Qed.

Lemma iterator_in_step_train_loop a e o (n : Z) :
  let E := epoch_size_of a e in
  1 ≤ E → 0 ≤ n →
  ∃ s, train_loop n a e E o = Done s ∧ iterator_in_step a e E n s.
Proof.
  intros E HE Hn. subst E.
  assert (Hb : 0 < batch_size a) by by apply (epoch_size_pos_batch (dataset_len e)).
  apply (train_loop_ind (iterator_in_step a e (epoch_size_of a e)) a e o HE);
    [| |done].
  - intros Hne. by rewrite Z.mod_0_l in Hne by lia.
  - intros j s s' Hj Hrun Hinv Hit Hne.
    apply train_iteration_iterator in Hit as (rest & Hsrc & ->).
    pose proof (mod_succ j (epoch_size_of a e) ltac:(lia)) as Hsucc.
    pose proof (Z.mod_pos_bound j (epoch_size_of a e) ltac:(lia)) as Hr.
    f_equal. destruct (decide (j `mod` epoch_size_of a e = 0)) as [Hbd|Hbd].
    + rewrite DataLoader_Some in Hsrc by done. injection Hsrc as Hsrc.
      rewrite Hsucc, Hbd in *. case_decide; [done|].
      replace (j + 1 - (0 + 1)) with j by lia.
      unfold batches_at. by rewrite Hsrc.
    + rewrite (Hinv Hbd) in Hsrc. injection Hsrc as Hsrc.
      rewrite Hsucc in *. case_decide; [done|].
      replace (j + 1 - (j `mod` epoch_size_of a e + 1))
        with (j - j `mod` epoch_size_of a e) by lia.
      replace (Z.to_nat (j `mod` epoch_size_of a e + 1))
        with (Z.to_nat (j `mod` epoch_size_of a e) + 1)%nat by lia.
      by rewrite <- drop_drop, Hsrc.
Qed.

Lemma fetch_events a e (E j : Z) s :
  0 < batch_size a →
  filter (λ ev, is_fetch ev) (iteration_events a e E j s)
  = [EvFetch (batch_of a e E j s)].
Proof.
  intros Hb. unfold iteration_events, boundary_events.
  rewrite (DataLoader_Some a e j Hb). iteration_cases.
Qed.

(** The batch of iteration [i]: a full segment of the permutation drawn
    at the last epoch boundary. *)
Lemma fetched_batch a e o (i : Z) :
  let E := epoch_size_of a e in
  let k := Z.to_nat (batch_size a) in
  let r := Z.to_nat (i `mod` E) in
  let perm := shuffle (sampler_draws e (i - i `mod` E)) (seq 0 (dataset_len e)) in
  1 ≤ E → 0 ≤ i →
  ∃ st, train_loop i a e E o = Done st
        ∧ batches_at a e (i - i `mod` E) !! r = Some (batch_of a e E i st)
        ∧ batch_of a e E i st = take k (drop (r * k) perm)
        ∧ (r * k + k ≤ dataset_len e)%nat.
Proof.
  intros E k r perm HE Hi. subst E k r perm. set (E := epoch_size_of a e) in *.
  assert (Hb : 0 < batch_size a) by by apply (epoch_size_pos_batch (dataset_len e)).
  destruct (iterator_in_step_train_loop a e o i HE ltac:(lia)) as (st & Hst & Hinv).
  destruct (train_loop_Done a e o (i + 1) HE) as (st' & Hst').
  rewrite train_loop_succ, Hst in Hst' by lia. cbn [bind] in Hst'.
  apply train_iteration_iterator in Hst' as (rest & Hsrc & _).
  fold E in Hst, Hinv, Hsrc.
  exists st. split; [done|].
  assert (Hlook : batches_at a e (i - i `mod` E) !! Z.to_nat (i `mod` E)
                  = Some (batch_of a e E i st)).
  { destruct (decide (i `mod` E = 0)) as [Hbd|Hbd].
    - rewrite DataLoader_Some in Hsrc by done. injection Hsrc as Hsrc.
      rewrite Hbd, Z.sub_0_r. unfold batches_at. by rewrite Hsrc.
    - rewrite (Hinv Hbd) in Hsrc. injection Hsrc as Hsrc.
      rewrite <- (Nat.add_0_r (Z.to_nat (i `mod` E))), <- lookup_drop, Hsrc.
      done. }
  split; [done|].
  pose proof Hlook as Hchunk. unfold batches_at, chunks in Hchunk.
  apply chunks_fuel_lookup in Hchunk as [Hbatch _]; [|lia|done].
  split; [done|].
  pose proof (Z.mod_pos_bound i E ltac:(lia)) as Hr.
  pose proof (Z.mul_div_le (Z.of_nat (dataset_len e)) (batch_size a) Hb) as Hfloor.
  fold (epoch_size_of a e) in Hfloor. fold E in Hfloor.
  apply Nat2Z.inj_le. rewrite Nat2Z.inj_add, Nat2Z.inj_mul, !Z2Nat.id by lia.
  nia.
Qed.

Lemma fetch_in_log a e (E i : Z) s (batch : list nat) :
  0 < batch_size a →
  EvFetch batch ∈ iteration_events a e E i s → batch = batch_of a e E i s.
Proof.
  intros Hb Hin.
  assert (Hf : EvFetch batch
               ∈ filter (λ ev, is_fetch ev) (iteration_events a e E i s)).
  { apply list_elem_of_filter. by split. }
  rewrite fetch_events in Hf by done.
  apply list_elem_of_singleton in Hf. by injection Hf.
Qed.

(** X9: line 99 rounds the epoch size down while the loader rounds the number
    of batches up, so the short last batch of a loader is never reached:
    in a run that completes every iteration fetches exactly one batch, the
    batch number [i mod E] of the loader created at the last epoch
    boundary, and it holds exactly [batch_size] samples, all different and
    all of the data set. *)
Theorem fetched_batches_full a e o :
  let E := epoch_size_of a e in
  1 ≤ E →
  ∃ s, train a e o = Done s
       ∧ ∀ i, 0 ≤ i < max_iter →
           ∃ batch,
             filter (λ ev, is_fetch ev) (events_at i (log s)) = [EvFetch batch]
             ∧ batches_at a e (i - i `mod` E) !! Z.to_nat (i `mod` E) = Some batch
             ∧ length batch = Z.to_nat (batch_size a)
             ∧ NoDup batch
             ∧ ∀ x, x ∈ batch → (x < dataset_len e)%nat.
Proof.
  intros E HE. subst E. set (E := epoch_size_of a e) in *.
  assert (Hb : 0 < batch_size a) by by apply (epoch_size_pos_batch (dataset_len e)).
  destruct (train_log a e o HE) as (s & Hs & _ & Hat & _ & _).
  exists s. split; [done|]. intros i Hi.
  destruct (fetched_batch a e o i HE ltac:(lia)) as (st & Hst & Hlook & Hbatch & Hfit).
  fold E in Hst, Hlook, Hbatch, Hfit, Hat.
  set (perm := shuffle (sampler_draws e (i - i `mod` E)) (seq 0 (dataset_len e)))
    in *.
  assert (Hperm : perm ≡ₚ seq 0 (dataset_len e)) by apply shuffle_Permutation.
  exists (batch_of a e E i st). split_and!.
  - rewrite Hat, decide_True by done. rewrite fetch_events by done.
    by rewrite (state_at_Done _ _ _ _ _ _ Hst).
  - done.
  - rewrite Hbatch, length_take, length_drop.
    rewrite (Permutation_length Hperm), length_seq. lia.
  - rewrite Hbatch. apply (sublist_NoDup _ perm).
    + rewrite Hperm. apply NoDup_seq.
    + etrans; [apply sublist_take | apply sublist_drop].
  - intros x Hx. rewrite Hbatch in Hx.
    apply subseteq_take, subseteq_drop in Hx. rewrite Hperm in Hx.
    apply elem_of_seq in Hx. lia.
Qed.

(** X10: within an epoch no sample is trained on twice: the batches of two
    iterations of the same epoch have no sample in common. *)
Theorem epoch_batches_disjoint a e o :
  let E := epoch_size_of a e in
  1 ≤ E →
  ∃ s, train a e o = Done s
       ∧ ∀ i i' batch batch',
           0 ≤ i < i' → i' < max_iter →
           i - i `mod` E = i' - i' `mod` E →
           EvFetch batch ∈ events_at i (log s) →
           EvFetch batch' ∈ events_at i' (log s) →
           ∀ x, x ∈ batch → x ∉ batch'.
Proof.
  intros E HE. subst E. set (E := epoch_size_of a e) in *.
  assert (Hb : 0 < batch_size a) by by apply (epoch_size_pos_batch (dataset_len e)).
  destruct (train_log a e o HE) as (s & Hs & _ & Hat & _ & _).
  exists s. split; [done|].
  intros i i' batch batch' Hi Hi' Hsame Hin Hin' x Hx Hx'.
  rewrite Hat, decide_True in Hin by lia.
  rewrite Hat, decide_True in Hin' by lia.
  destruct (fetched_batch a e o i HE ltac:(lia)) as (st & Hst & _ & Hbatch & _).
  destruct (fetched_batch a e o i' HE ltac:(lia)) as (st' & Hst' & _ & Hbatch' & _).
  fold E in Hst, Hst', Hbatch, Hbatch', Hat, Hin, Hin'.
  rewrite (state_at_Done _ _ _ _ _ _ Hst) in Hin.
  rewrite (state_at_Done _ _ _ _ _ _ Hst') in Hin'.
  apply fetch_in_log in Hin, Hin'; [|done..]. subst batch batch'.
  rewrite Hbatch in Hx. rewrite Hbatch', <- Hsame in Hx'.
  set (perm := shuffle (sampler_draws e (i - i `mod` E)) (seq 0 (dataset_len e)))
    in *.
  assert (Hnodup : NoDup perm).
  { unfold perm. rewrite shuffle_Permutation. apply NoDup_seq. }
  apply elem_of_take in Hx as (p & Hp & Hpk).
  apply elem_of_take in Hx' as (p' & Hp' & Hpk').
  rewrite lookup_drop in Hp, Hp'.
  pose proof (NoDup_lookup _ _ _ _ Hnodup Hp Hp') as Heq.
  pose proof (Z.mod_pos_bound i E ltac:(lia)).
  pose proof (Z.mod_pos_bound i' E ltac:(lia)).
  assert (Z.to_nat (i `mod` E) < Z.to_nat (i' `mod` E))%nat by lia.
  nia.
Qed.

(** ** The parameters that the optimiser is built over *)

Lemma apply_all_count_parameters (cs cs' : list (module (F := F))) (g g' : G) :
  Forall (λ m, ∀ g m' g', apply (weights_init xavier_sample) m g = Done (m', g') →
                          count_parameters m' = count_parameters m) cs →
  apply_all (weights_init xavier_sample) cs g = Done (cs', g') →
  foldr (λ c n, count_parameters c + n)%nat 0%nat cs'
  = foldr (λ c n, count_parameters c + n)%nat 0%nat cs.
Proof.
  intros Hcs. revert cs' g g'. induction Hcs as [|c cs Hc _ IH]; intros cs' g g' Hrun.
  - by injection Hrun as <- _.
  - rewrite apply_all_cons in Hrun.
    destruct (apply (weights_init xavier_sample) c g) as [[c' g1]|ex [c' g1]] eqn:Hrun1;
      [|done].
    destruct (apply_all (weights_init xavier_sample) cs g1)
      as [[cs1 g2]|ex [cs1 g2]] eqn:Hrun2; [|done].
    injection Hrun as <- _. cbn [foldr].
    by rewrite (Hc _ _ _ Hrun1), (IH _ _ _ Hrun2).
Qed.

Lemma apply_count_parameters (m m' : module (F := F)) (g g' : G) :
  apply (weights_init xavier_sample) m g = Done (m', g') →
  count_parameters m' = count_parameters m.
Proof.
  revert g m' g'. induction m as [w b|kind ps cs IH] using module_ind_nested;
    intros g m' g' Hrun.
  - cbn in Hrun. unfold xavier in Hrun.
    destruct (xavier_sample g (shape w)) as [xs g1].
    destruct b as [b|]; [|done]. by injection Hrun as <- _.
  - rewrite apply_Layer in Hrun.
    destruct (apply_all (weights_init xavier_sample) cs g)
      as [[cs' g1]|ex [cs' g1]] eqn:Hrun1; [|done].
    cbn in Hrun. injection Hrun as <- _. cbn [count_parameters].
    by rewrite (apply_all_count_parameters _ _ _ _ IH Hrun1).
Qed.

(** X11: the initialisation replaces values only: a network that comes out of
    lines 79-81 has the parameters it had before, so the optimiser of line
    83 is built over every parameter of the base network and of the
    heads, and with the learning rate, momentum and weight decay of the
    command line in its one parameter group. *)
Theorem optimizer_over_all_parameters (net net' : SSD (F := F)) (g g' : G) a :
  initialize_weights xavier_sample net g = Done (net', g') →
  parameters net' = parameters net
  ∧ ∃ pg, param_groups (SGD (parameters net') (lr a) (momentum a) (weight_decay a))
          = [pg]
          ∧ pg !! "params" = Some (VParams (parameters net))
          ∧ pg !! "lr" = Some (VNum (PyFloat (lr a)))
          ∧ pg !! "momentum" = Some (VNum (PyFloat (momentum a)))
          ∧ pg !! "weight_decay" = Some (VNum (PyFloat (weight_decay a))).
Proof.
  intros Hrun. unfold initialize_weights in Hrun.
  destruct (apply (weights_init xavier_sample) (extras net) g)
    as [[x' g1]|ex [x' g1]] eqn:Hx; [|done].
  destruct (apply (weights_init xavier_sample) (loc net) g1)
    as [[l' g2]|ex [l' g2]] eqn:Hl; [|done].
  destruct (apply (weights_init xavier_sample) (conf net) g2)
    as [[c' g3]|ex [c' g3]] eqn:Hc; [|done].
  injection Hrun as <- _.
  assert (Hsame : parameters
                    {| vgg := vgg net; extras := x'; loc := l'; conf := c' |}
                  = parameters net).
  { unfold parameters. cbn [vgg extras loc conf].
    by rewrite (apply_count_parameters _ _ _ _ Hx),
         (apply_count_parameters _ _ _ _ Hl),
         (apply_count_parameters _ _ _ _ Hc). }
  split; [done|]. rewrite Hsame. eexists. split; [reflexivity|].
  split_and!; by simplify_map_eq.
Qed.

End Properties.

(** * The properties at work on the concrete runs *)

Lemma demo_epoch_size : epoch_size_of demo_args demo_env = 5.
Proof. reflexivity. Qed.

Lemma unit_epoch_size : epoch_size_of unit_args unit_env = 1.
Proof. reflexivity. Qed.

Lemma three_epoch_size : epoch_size_of unit_args three_env = 3.
Proof. reflexivity. Qed.

(** The scenario of ten images in batches of two, with the loop stopped
    after 12 iterations: the iterator is created at 0, 5 and 10, the only
    periodic checkpoint is that of iteration 0, and one full-model
    checkpoint ends the run. *)
Example twelve_iterations :
  let l := log (reached (train_for 12 demo_args demo_env demo_optimizer)) in
  iterations_with is_new_iterator l = [0; 5; 10]
  ∧ iterations_with is_save_state_dict l = [0]
  ∧ iterations_with is_viz_append l = [0; 5; 10]
  ∧ count_events is_optimizer_step l = 12%nat
  ∧ last l = Some (Finish, EvSaveModel "weights/v2.pth").
Proof. vm_compute. repeat split; reflexivity. Qed.

(** A data set smaller than one batch: the modulo of line 117 divides by
    zero in the first iteration, before anything is fetched. *)
Example short_dataset :
  train_for 12 demo_args
    {| dataset_len := 1; sampler_draws := λ _ k, k;
       criterion_out := criterion_out demo_env |} demo_optimizer
  = Raised ZeroDivisionError (train_setup demo_args demo_optimizer).
Proof. reflexivity. Qed.

(** The schedule on the default hyper-parameters: after two milestones
    the rate [1e-3] has become [1e-5] in the only parameter group. *)
Lemma adjust_learning_rate_demo :
  param_groups demo_optimizer !! 0%nat
  = Some (<["params" := VParams [0; 1; 2]%nat]>
          (<["lr" := VNum (PyFloat (1 # 1000)%Q)]>
          (<["momentum" := VNum (PyFloat (9 # 10)%Q)]>
          (<["dampening" := VNum (PyInt 0)]>
          (<["weight_decay" := VNum (PyFloat (5 # 10000)%Q)]> ∅)))))
  ∧ ∃ pg', param_groups
             (adjust_learning_rate demo_args demo_optimizer (1 # 10)%Q 2) !! 0%nat
           = Some pg'
           ∧ pg' !! "lr" = Some (VNum (PyFloat (1 # 100000)%Q))
           ∧ pg' !! "momentum" = Some (VNum (PyFloat (9 # 10)%Q)).
Proof.
  split; [reflexivity|].
  destruct (adjust_learning_rate_uniform demo_args demo_optimizer (1 # 10)%Q 2)
    as (_ & _ & Hgroups).
  destruct (Hgroups 0%nat _ eq_refl) as (pg' & Hpg' & Hlr & Hrest).
  exists pg'. split; [exact Hpg'|]. split; [exact Hlr|].
  rewrite Hrest; [reflexivity | discriminate].
Defined.

(** Ten images in batches of two: iteration 10 starts an epoch, iteration
    11 does not. *)
Lemma new_iterator_demo :
  1 ≤ epoch_size_of demo_args demo_env
  ∧ ∃ s, train demo_args demo_env demo_optimizer = Done s
         ∧ (∃ batches, EvNewIterator batches ∈ events_at 10 (log s))
         ∧ ¬ (∃ batches, EvNewIterator batches ∈ events_at 11 (log s)).
Proof.
  assert (HE : 1 ≤ epoch_size_of demo_args demo_env) by (rewrite demo_epoch_size; lia).
  split; [exact HE|].
  destruct (new_iterator_iff_epoch_boundary demo_args demo_env demo_optimizer HE)
    as (s & Hs & Hiff & _).
  exists s. split; [exact Hs|]. split.
  - apply Hiff; [unfold max_iter; lia | reflexivity].
  - intros Hin. apply Hiff in Hin; [discriminate | unfold max_iter; lia].
Defined.

(** The run on ten images never finds its iterator exhausted. *)
Lemma fetch_never_exhausted_demo :
  (0 < dataset_len demo_env)%nat
  ∧ ∀ s, train demo_args demo_env demo_optimizer ≠ Raised StopIteration s.
Proof.
  assert (Hlen : (0 < dataset_len demo_env)%nat) by (cbn; lia).
  split; [exact Hlen|].
  destruct (fetch_never_exhausted demo_args demo_env demo_optimizer Hlen)
    as [_ Hnever].
  exact Hnever.
Defined.

(** [--iterations 12] changes nothing: the run makes 120000 steps. *)
Lemma iterations_option_ignored_demo :
  train (set_iterations 12 demo_args) demo_env demo_optimizer
  = train demo_args demo_env demo_optimizer
  ∧ Z.of_nat (count_events is_optimizer_step
                (log (reached (train (set_iterations 12 demo_args)
                                 demo_env demo_optimizer))))
    = 120000.
Proof.
  destruct (iterations_option_ignored demo_sample demo_args demo_env
              demo_optimizer 12)
    as (Hsame & _ & _ & Hcount & _).
  split; [exact Hsame|]. rewrite Hcount, demo_epoch_size. reflexivity.
Defined.

(** Iteration 5000 writes its checkpoint, iteration 5001 writes none, and
    the run ends with the one full-model checkpoint. *)
Lemma checkpoint_cadence_demo :
  1 ≤ epoch_size_of demo_args demo_env
  ∧ ∃ s, train demo_args demo_env demo_optimizer = Done s
         ∧ filter (λ ev, is_save_state_dict ev) (events_at 5000 (log s))
           = [EvSaveStateDict "weights/ssd_iter_new5000.pth"]
         ∧ filter (λ ev, is_save_state_dict ev) (events_at 5001 (log s)) = []
         ∧ filter (λ ev, is_save_model ev) (log s).*2
           = [EvSaveModel "weights/v2.pth"].
Proof.
  assert (HE : 1 ≤ epoch_size_of demo_args demo_env) by (rewrite demo_epoch_size; lia).
  split; [exact HE|].
  destruct (checkpoint_cadence demo_args demo_env demo_optimizer HE)
    as (s & Hs & Hsd & _ & _ & _ & Hmodel & _).
  exists s. split; [exact Hs|].
  rewrite !Hsd, Hmodel. repeat split; reflexivity.
Defined.

(** The point plotted when the third epoch starts: the losses of the
    iterations 5 to 9, and those of the iterations 0 to 9. *)
Lemma viz_point_demo :
  1 ≤ epoch_size_of demo_args demo_env ∧ visdom demo_args = true
  ∧ ∃ s, train demo_args demo_env demo_optimizer = Done s
         ∧ filter (λ ev, is_viz_append ev) (events_at 10 (log s))
           = [EvVizAppend [3; 3; 3; 3; 3; 3]
                [ PyFloat 35%Q; PyFloat 70%Q; PyFloat 105%Q;
                  PyFloat 45%Q; PyFloat 90%Q; PyFloat 135%Q ]]
         ∧ filter (λ ev, is_viz_append ev) (events_at 11 (log s)) = [].
Proof.
  assert (HE : 1 ≤ epoch_size_of demo_args demo_env) by (rewrite demo_epoch_size; lia).
  split; [exact HE|]. split; [reflexivity|].
  destruct (viz_point_per_epoch demo_args demo_env demo_optimizer HE eq_refl)
    as (s & Hs & Hviz).
  exists s. split; [exact Hs|].
  rewrite !Hviz. split; reflexivity.
Defined.

(** After 11 iterations three boundaries have been passed and the
    cumulative counter holds the totals of the first two epochs. *)
Lemma cumulative_loss_demo :
  1 ≤ epoch_size_of demo_args demo_env
  ∧ ∃ s, train_loop 11 demo_args demo_env 5 demo_optimizer = Done s
         ∧ epoch s = 3
         ∧ cum_loc_loss s
           = py_sum [epoch_loc_loss demo_env 5 0; epoch_loc_loss demo_env 5 1]
         ∧ cum_loc_loss s = PyFloat 45%Q.
Proof.
  assert (HE : 1 ≤ epoch_size_of demo_args demo_env) by (rewrite demo_epoch_size; lia).
  split; [exact HE|].
  destruct (cumulative_loss_one_epoch_behind demo_args demo_env demo_optimizer HE)
    as (_ & Hrun & _).
  destruct (Hrun 11 ltac:(lia)) as (s & Hs & Hepoch & Hcum & _).
  rewrite demo_epoch_size in *.
  exists s. split; [exact Hs|]. split; [exact Hepoch|].
  rewrite Hcum, Hepoch. split; reflexivity.
Defined.

(** A small network: the base convolution keeps its values, the three
    head convolutions get the first three draws and zero biases. *)
Lemma heads_initialized_demo :
  all_biased (extras demo_net) = true
  ∧ all_biased (loc demo_net) = true
  ∧ all_biased (conf demo_net) = true
  ∧ ∃ net' g',
      initialize_weights demo_sample demo_net 0%nat = Done (net', g')
      ∧ vgg net' = [demo_conv 7 7]
      ∧ data <$> head_weights net' = [[1; 1]; [2; 2]; [3; 3]]%Q
      ∧ head_biases net'
        = [ Some {| shape := [1]%nat; data := [0%Q] |};
            Some {| shape := [1]%nat; data := [0%Q] |};
            Some {| shape := [1]%nat; data := [0%Q] |} ].
Proof.
  split; [reflexivity|]. split; [reflexivity|]. split; [reflexivity|].
  destruct (heads_initialized demo_sample demo_net 0%nat eq_refl eq_refl eq_refl)
    as (net' & g' & Hrun & Hvgg & _).
  exists net', g'. split; [exact Hrun|].
  vm_compute in Hrun. injection Hrun as <- <-.
  repeat split; reflexivity.
Defined.

(** The loss function of any run is the one of line 85: with every
    option changed (a matching threshold of 0.3 among them) the run builds
    the same loss function as with the defaults, once; with a batch size
    of zero it builds none. *)
Lemma criterion_fixed_demo :
  jaccard_threshold other_args = (3 # 10)%Q
  ∧ matching_threshold (criterion other_args) = (1 # 2)%Q
  ∧ neg_pos_ratio (criterion other_args) = 3
  ∧ filter (λ ev, is_multibox_loss ev)
      (script demo_sample other_args demo_env demo_net 0%nat).1.*2
    = [EvMultiBoxLoss (criterion demo_args)]
  ∧ count_events is_multibox_loss
      (script demo_sample other_args demo_env demo_net 0%nat).1 = 1%nat
  ∧ filter (λ ev, is_multibox_loss ev)
      (script demo_sample zero_batch_args demo_env demo_net 0%nat).1.*2
    = [].
Proof.
  destruct (criterion_fixed demo_sample other_args demo_env demo_net 0%nat)
    as (Hc & Hsame & Honce & _ & Hrun & _).
  destruct (criterion_fixed demo_sample zero_batch_args demo_env demo_net 0%nat)
    as (_ & _ & Hnone & _).
  split; [reflexivity|].
  split; [rewrite Hc; reflexivity|]. split; [rewrite Hc; reflexivity|].
  split; [rewrite Honce, <- (Hsame demo_args); reflexivity|].
  split; [|rewrite Hnone; reflexivity].
  destruct (script demo_sample other_args demo_env demo_net 0%nat).2
    as [r|] eqn:Hr.
  - exact (proj2 (Hrun r eq_refl)).
  - unfold script, module_level in Hr. cbn in Hr. discriminate Hr.
Defined.

(** With one iteration per epoch both milestones are epoch boundaries. *)
Lemma lr_changes_unit :
  1 ≤ epoch_size_of unit_args unit_env
  ∧ ∃ s, train unit_args unit_env unit_optimizer = Done s
         ∧ (∃ step, (80000, step) ∈ lr_changes (log s))
         ∧ (∃ step, (100000, step) ∈ lr_changes (log s))
         ∧ step_index s = Z.of_nat (length (lr_changes (log s))).
Proof.
  assert (HE : 1 ≤ epoch_size_of unit_args unit_env) by (rewrite unit_epoch_size; lia).
  split; [exact HE|].
  destruct (lr_changes_at_milestones unit_args unit_env unit_optimizer HE)
    as (s & Hs & _ & Hat & _ & _ & Hidx & _).
  exists s. split; [exact Hs|].
  split; [apply Hat; [left|]; reflexivity|].
  split; [apply Hat; [right|]; reflexivity|]. exact Hidx.
Defined.

(** The rate does not change at each of the iterations 80000, 100000 and
    120000.  With an epoch of one iteration the rate is
    changed at 80000 and at 100000, and [step_index] ends as 2: the
    milestone 120000 is listed, but the loop ends with iteration 119999.
    With an epoch of three iterations neither 80000 nor 100000 is an
    epoch boundary, and the rate is never changed. *)
Lemma lr_not_changed_at_every_milestone :
  (∃ s, train unit_args unit_env unit_optimizer = Done s
        ∧ lr_changes (log s) = [(80000, 1); (100000, 2)]
        ∧ step_index s = 2
        ∧ 120000 ∈ stepvalues
        ∧ ¬ ∃ step, (120000, step) ∈ lr_changes (log s))
  ∧ (∃ s, train unit_args three_env unit_optimizer = Done s
          ∧ lr_changes (log s) = []
          ∧ step_index s = 0)
  ∧ ¬ (∀ (a : args (F := Q)) e o s,
         train a e o = Done s →
         ∀ i, (∃ step, (i, step) ∈ lr_changes (log s)) ↔ i ∈ stepvalues).
Proof.
  assert (H1 : ∃ s, train unit_args unit_env unit_optimizer = Done s
                    ∧ lr_changes (log s) = [(80000, 1); (100000, 2)]
                    ∧ step_index s = 2
                    ∧ 120000 ∈ stepvalues
                    ∧ ¬ ∃ step, (120000, step) ∈ lr_changes (log s)).
  { destruct (lr_changes_train unit_args unit_env unit_optimizer) as (s & Hs & Hch & Hidx).
    { rewrite unit_epoch_size. lia. }
    rewrite unit_epoch_size in *.
    exists s. split; [exact Hs|]. rewrite Hch, Hidx.
    split; [reflexivity|]. split; [reflexivity|].
    split; [apply elem_of_stepvalues; tauto|].
    intros [step Hin]. vm_compute in Hin.
    repeat (apply elem_of_cons in Hin as [Hin|Hin]; [discriminate|]).
    by apply elem_of_nil in Hin. }
  split; [exact H1|]. split.
  - destruct (lr_changes_train unit_args three_env unit_optimizer) as (s & Hs & Hch & Hidx).
    { rewrite three_epoch_size. lia. }
    rewrite three_epoch_size in *.
    exists s. split; [exact Hs|]. rewrite Hch, Hidx. split; reflexivity.
  - intros Hclaim. destruct H1 as (s & Hs & _ & _ & Hin & Hnot).
    apply Hnot. by apply (Hclaim _ _ _ _ Hs 120000).
Qed.

(** * The further properties on the concrete runs *)

(** One iteration per epoch: after iteration 100000 both milestones have
    been hit, and the rate is [lr * gamma ** 2]. *)
Lemma lr_schedule_unit :
  1 ≤ epoch_size_of unit_args unit_env ∧ 0 ≤ 100001
  ∧ ∃ s, train_loop 100001 unit_args unit_env 1 unit_optimizer = Done s
         ∧ step_index s = 2
         ∧ optimizer s
           = adjust_learning_rate unit_args unit_optimizer (gamma unit_args) 2.
Proof.
  assert (HE : 1 ≤ epoch_size_of unit_args unit_env) by (rewrite unit_epoch_size; lia).
  split; [exact HE|]. split; [lia|].
  destruct (lr_schedule unit_args unit_env unit_optimizer 100001 HE ltac:(lia))
    as (s & Hs & Hidx & Hopt).
  rewrite unit_epoch_size in *.
  assert (Hhits : hits 1 100001 = [80000; 100000]) by reflexivity.
  rewrite Hhits in *.
  exists s. split; [exact Hs|]. split; [exact Hidx|]. exact Hopt.
Defined.

(** Ten images in batches of two: after 12 iterations three loaders have
    been created and [epoch] is 3. *)
Lemma epoch_counts_iterators_demo :
  1 ≤ epoch_size_of demo_args demo_env ∧ 0 ≤ 12
  ∧ ∃ s, train_loop 12 demo_args demo_env 5 demo_optimizer = Done s
         ∧ epoch s = Z.of_nat (count_events is_new_iterator (log s))
         ∧ epoch s = 3.
Proof.
  assert (HE : 1 ≤ epoch_size_of demo_args demo_env) by (rewrite demo_epoch_size; lia).
  split; [exact HE|]. split; [lia|].
  destruct (epoch_counts_iterators demo_args demo_env demo_optimizer 12 HE ltac:(lia))
    as (s & Hs & Hep & _).
  rewrite demo_epoch_size in *.
  exists s. split; [exact Hs|]. split; [exact Hep|].
  vm_compute in Hs. injection Hs as <-. reflexivity.
Defined.

(** With [--batch_size 0] the script dies in line 47, also on a network on
    which the initialisation would fail; with batches of two a single
    image dies of the modulo of line 117; with [--batch_size -2] the
    loader refuses; the run on ten images in batches of two completes, and
    ten images make at least one batch of two. *)
Lemma batch_size_ends_run_demo :
  batch_size zero_batch_args = 0
  ∧ module_level demo_sample zero_batch_args demo_net_without_bias 0%nat
    = inl ZeroDivisionError
  ∧ script demo_sample zero_batch_args demo_env demo_net 0%nat = ([], None)
  ∧ train demo_args single_image_env demo_optimizer
    = Raised ZeroDivisionError (train_setup demo_args demo_optimizer)
  ∧ train negative_batch_args demo_env demo_optimizer
    = Raised ValueError (train_setup negative_batch_args demo_optimizer)
  ∧ (∃ s, train demo_args demo_env demo_optimizer = Done s)
  ∧ 0 < batch_size demo_args ≤ Z.of_nat (dataset_len demo_env)
  ∧ ∀ i, events_at i
           (script demo_sample demo_args single_image_env demo_net 0%nat).1
         = [].
Proof.
  destruct (batch_size_ends_run demo_sample zero_batch_args demo_env demo_optimizer)
    as (Hzero & _).
  destruct (batch_size_ends_run demo_sample demo_args single_image_env demo_optimizer)
    as (_ & _ & Hsmall & _ & _ & _ & Hdead).
  destruct (batch_size_ends_run demo_sample negative_batch_args demo_env
              demo_optimizer) as (_ & _ & _ & Hneg & _).
  destruct (batch_size_ends_run demo_sample demo_args demo_env demo_optimizer)
    as (_ & _ & _ & _ & Hdone & _).
  split; [reflexivity|].
  split; [exact (proj1 (Hzero eq_refl demo_net_without_bias 0%nat))|].
  split; [exact (proj2 (Hzero eq_refl demo_net 0%nat))|].
  split; [apply Hsmall; [discriminate | left; cbn; lia]|].
  split; [apply Hneg; cbn; lia|].
  assert (HE : 1 ≤ epoch_size_of demo_args demo_env) by (rewrite demo_epoch_size; lia).
  destruct (train_log demo_args demo_env demo_optimizer HE) as (s & Hs & _).
  split; [exists s; exact Hs|].
  split; [exact (Hdone s Hs)|].
  apply Hdead. cbn. lia.
Defined.

Lemma print_cadence_demo :
  1 ≤ epoch_size_of demo_args demo_env
  ∧ ∃ s, train demo_args demo_env demo_optimizer = Done s
         ∧ filter (λ ev, is_print ev) (events_at 20 (log s))
           = [EvPrintTimer; EvPrintLoss 60%Q]
         ∧ filter (λ ev, is_print ev) (events_at 21 (log s)) = [].
Proof.
  assert (HE : 1 ≤ epoch_size_of demo_args demo_env) by (rewrite demo_epoch_size; lia).
  split; [exact HE|].
  destruct (print_cadence demo_args demo_env demo_optimizer HE) as (s & Hs & Hp & _).
  exists s. split; [exact Hs|]. rewrite !Hp. split; reflexivity.
Defined.

Lemma periodic_checkpoints_demo :
  1 ≤ epoch_size_of demo_args demo_env
  ∧ ∃ s, train demo_args demo_env demo_optimizer = Done s
         ∧ length (state_dict_paths (log s)) = 24%nat
         ∧ NoDup (state_dict_paths (log s)).
Proof.
  assert (HE : 1 ≤ epoch_size_of demo_args demo_env) by (rewrite demo_epoch_size; lia).
  split; [exact HE|].
  destruct (periodic_checkpoints demo_args demo_env demo_optimizer HE)
    as (s & Hs & _ & Hlen & Hnodup).
  exists s. split; [exact Hs|]. split; [exact Hlen | exact Hnodup].
Defined.

(** The point of iteration 10: the losses of the iterations 5 to 9 and
    the totals of the iterations 0 to 9, at the abscissa 3. *)
Lemma plotted_point_demo :
  1 ≤ epoch_size_of demo_args demo_env ∧ visdom demo_args = true
  ∧ 0 ≤ 2 ∧ 2 * epoch_size_of demo_args demo_env < max_iter
  ∧ ∃ s, train demo_args demo_env demo_optimizer = Done s
         ∧ filter (λ ev, is_viz_append ev) (events_at 10 (log s))
           = [EvVizAppend [3; 3; 3; 3; 3; 3]
                [ PyFloat 35%Q; PyFloat 70%Q; PyFloat 105%Q;
                  PyFloat 45%Q; PyFloat 90%Q; PyFloat 135%Q ]].
Proof.
  assert (HE : 1 ≤ epoch_size_of demo_args demo_env) by (rewrite demo_epoch_size; lia).
  assert (Hlt : 2 * epoch_size_of demo_args demo_env < max_iter)
    by (rewrite demo_epoch_size; unfold max_iter; lia).
  split; [exact HE|]. split; [reflexivity|]. split; [lia|]. split; [exact Hlt|].
  destruct (plotted_point demo_args demo_env demo_optimizer 2 HE eq_refl
              ltac:(lia) Hlt) as (s & Hs & Hpoint).
  rewrite demo_epoch_size in Hpoint. change (2 * 5) with 10 in Hpoint.
  exists s. split; [exact Hs|]. rewrite Hpoint. reflexivity.
Defined.

Lemma initialization_needs_biases_demo :
  all_biased (extras demo_net_without_bias)
  && all_biased (loc demo_net_without_bias)
  && all_biased (conf demo_net_without_bias) = false
  ∧ script demo_sample demo_args demo_env demo_net_without_bias 0%nat = ([], None).
Proof.
  split; [reflexivity|].
  destruct (initialization_needs_biases demo_sample demo_net_without_bias 0%nat
              eq_refl) as (net' & g' & _ & _ & Hscript).
  exact (Hscript demo_args demo_env).
Defined.

Lemma fetched_batches_demo :
  1 ≤ epoch_size_of demo_args demo_env
  ∧ ∃ s, train demo_args demo_env demo_optimizer = Done s
         ∧ ∃ batch, filter (λ ev, is_fetch ev) (events_at 7 (log s)) = [EvFetch batch]
                    ∧ length batch = 2%nat.
Proof.
  assert (HE : 1 ≤ epoch_size_of demo_args demo_env) by (rewrite demo_epoch_size; lia).
  split; [exact HE|].
  destruct (fetched_batches_full demo_args demo_env demo_optimizer HE)
    as (s & Hs & Hfetch).
  destruct (Hfetch 7 ltac:(unfold max_iter; lia)) as (batch & Hev & _ & Hlen & _).
  exists s. split; [exact Hs|]. exists batch. split; [exact Hev | exact Hlen].
Defined.

Lemma epoch_batches_disjoint_demo :
  1 ≤ epoch_size_of demo_args demo_env
  ∧ ∃ s, train demo_args demo_env demo_optimizer = Done s
         ∧ ∀ batch batch',
             EvFetch batch ∈ events_at 5 (log s) →
             EvFetch batch' ∈ events_at 9 (log s) →
             ∀ x, x ∈ batch → x ∉ batch'.
Proof.
  assert (HE : 1 ≤ epoch_size_of demo_args demo_env) by (rewrite demo_epoch_size; lia).
  split; [exact HE|].
  destruct (epoch_batches_disjoint demo_args demo_env demo_optimizer HE)
    as (s & Hs & Hdisj).
  exists s. split; [exact Hs|]. intros batch batch'.
  apply Hdisj; [lia | unfold max_iter; lia | rewrite demo_epoch_size; reflexivity].
Defined.

Lemma optimizer_over_all_parameters_demo :
  ∃ net' g',
    initialize_weights demo_sample demo_net 0%nat = Done (net', g')
    ∧ parameters net' = parameters demo_net.
Proof.
  destruct (initialize_weights demo_sample demo_net 0%nat)
    as [[net' g']|ex st] eqn:Hrun; [|vm_compute in Hrun; discriminate].
  exists net', g'. split; [reflexivity|].
  destruct (optimizer_over_all_parameters demo_sample demo_net net' 0%nat g'
              demo_args Hrun) as [Hsame _].
  exact Hsame.
Defined.
